(** * WebPaymentsCOF: the validated-request / retried-external-call pipeline

    A shallow embedding of the two source files of the server:

    - [server/schema.js]: four JSON Type Definition schemas and the
      validators ajv compiles from them;
    - the entry module (micro + microrouter): the four request handlers
      [createPayment], [createCard], [listCards], [searchCustomers], the
      static handler [serveStatic] and the route table.

    JavaScript values are an inductive type, objects are finite maps from
    property names to values.  Handlers are computations in a small
    state-and-exception monad over a [World] that records everything a
    request can observe: calls made to the Square client, ids drawn from
    nanoid, responses sent, log lines.  The Square client, nanoid, the
    static file server and the retry count are the environment [Env]. *)

From Stdlib Require Import ZArith Lia Ascii String.
From stdpp Require Import gmap strings list fin_maps.

Open Scope string_scope.
Open Scope list_scope.

(** ** JavaScript values *)

(** A JS number as far as this program can tell numbers apart: a finite
    double with an integral value, a finite double with a fractional part,
    an infinity, or NaN. *)
Inductive jsnum :=
| NInt (z : Z)
| NFrac
| NInfinite
| NNaN.

#[warnings="-register-all"]
Inductive value :=
| VUndefined
| VNull
| VBool (b : bool)
| VNum (n : jsnum)
| VStr (s : string)
| VArr (l : list value)
| VObj (m : gmap string value).

(** [v.k] on a value that has properties.  None of the property names the
    program reads ([id], [payment], [idempotencyKey], ...) exists on the
    prototypes of strings, numbers, booleans or arrays, so those give
    [undefined]. *)
Definition prop (v : value) (k : string) : value :=
  match v with
  | VObj m => default VUndefined (m !! k)
  | _ => VUndefined
  end.

(** [v[i]] for an array index. *)
Definition elem (v : value) (i : nat) : value :=
  match v with
  | VArr l => default VUndefined (l !! i)
  | _ => VUndefined
  end.

(** [undefined] and [null] have no properties: reading one throws. *)
Definition nullish (v : value) : bool :=
  match v with
  | VUndefined | VNull => true
  | _ => false
  end.

(** ToBoolean. *)
Definition truthy (v : value) : bool :=
  match v with
  | VUndefined | VNull => false
  | VBool b => b
  | VNum (NInt z) => negb (z =? 0)%Z
  | VNum NNaN => false
  | VNum _ => true
  | VStr s => negb (String.eqb s "")
  | VArr _ | VObj _ => true
  end.

(** ** server/schema.js *)

Module Schema.

(** The two JTD type forms the schemas use. *)
Inductive jtd_type :=
| string_t
| uint32_t.

(** A JTD schema in properties form; every member is in type form.
    [additionalProperties] is not given by any schema of the file, so it
    has JTD's default, false. *)
Record jtd_schema := {
  properties : list (string * jtd_type);
  optionalProperties : list (string * jtd_type);
}.

(** ajv's check for a type form: [typeof data == "string"], and for
    [uint32] a finite number without fractional part in 0..4294967295. *)
Definition validate_type (t : jtd_type) (data : value) : bool :=
  match t, data with
  | string_t, VStr _ => true
  | uint32_t, VNum (NInt z) => (0 <=? z)%Z && (z <=? 4294967295)%Z
  | _, _ => false
  end.

Definition schema_keys (s : jtd_schema) : gset string :=
  list_to_set ((properties s).*1 ++ (optionalProperties s).*1).

(** [ajv.compile(schema)] for a properties form: the data is a non-null,
    non-array object; every required member is present ([!== undefined])
    and valid; every optional member is valid when present; no other
    member is present. *)
Definition compile (s : jtd_schema) (data : value) : bool :=
  match data with
  | VObj m =>
      forallb (fun '(k, t) => validate_type t (prop data k)) (properties s)
      && forallb (fun '(k, t) =>
                    match prop data k with
                    | VUndefined => true
                    | v => validate_type t v
                    end) (optionalProperties s)
      && bool_decide (dom m ⊆ schema_keys s)
  | _ => false
  end.

Definition paymentSchema : jtd_schema := {|
  properties := [("sourceId", string_t); ("locationId", string_t)];
  optionalProperties :=
    [("amount", uint32_t); ("idempotencyKey", string_t);
     ("verificationToken", string_t)];
|}.

Definition searchCustomerSchema : jtd_schema := {|
  properties := [("emailAddress", string_t)];
  optionalProperties := [];
|}.

Definition listCardsSchema : jtd_schema := {|
  properties := [("customerId", string_t)];
  optionalProperties := [];
|}.

Definition cardSchema : jtd_schema := {|
  properties :=
    [("expMonth", uint32_t); ("expYear", uint32_t);
     ("cardHolderName", string_t); ("customerId", string_t);
     ("idempotencyKey", string_t); ("sourceId", string_t);
     ("verificationToken", string_t)];
  optionalProperties := [];
|}.

Definition validatePaymentPayload := compile paymentSchema.
Definition validateSearchCustomerPayload := compile searchCustomerSchema.
Definition validateListCardsPayload := compile listCardsSchema.
Definition validateCardPayload := compile cardSchema.

(** [module.exports] of schema.js. *)
Definition exports : gmap string (value → bool) :=
  {[ "validatePaymentPayload" := validatePaymentPayload;
     "validateSearchCustomerPayload" := validateSearchCustomerPayload;
     "validateListCardsPayload" := validateListCardsPayload;
     "validateCardPayload" := validateCardPayload ]}.

End Schema.

(** ** Exceptions, the world of one request, and the handler monad *)

(** What a handler can throw. [HttpError] is micro's [createError],
    [ApiError] the Square SDK's error class, [OtherError] anything else the
    client raises (network failure, timeout, ...). *)
Inductive exn :=
| HttpError (statusCode : Z) (message : string)
| ReferenceError (name : string)
| TypeError (message : string)
| ApiError (errors : value)
| OtherError (message : string).

(** [ex instanceof ApiError] *)
Definition instanceof_ApiError (ex : exn) : bool :=
  match ex with
  | ApiError _ => true
  | _ => false
  end.

(** A call received by the External Payments Client, with its argument. *)
Inductive ClientCall :=
| CreatePayment (request : value)
| CreateCard (request : value)
| ListCards (customerId : value)
| SearchCustomers (query : value).

Definition call_arg (c : ClientCall) : value :=
  match c with
  | CreatePayment v | CreateCard v | ListCards v | SearchCustomers v => v
  end.

(** What the client answers to a call. *)
Inductive ClientOutcome :=
| Returns (result : value) (statusCode : Z)
| ThrowsApiError (errors : value)
| ThrowsOther (message : string).

Inductive Level := Debug | Info | Error.

(** A log line: level, text, and the attempt number when the line carries
    one.  The other interpolated data (payload, result, error) is dropped:
    the logger is a sink. *)
Record LogEntry := {
  lvl : Level;
  msg : string;
  at_attempt : option nat;
}.

Record World := {
  nanoid_calls : nat;                 (* ids drawn from nanoid so far *)
  client_calls : list ClientCall;     (* calls the client received, oldest first *)
  responses : list (Z * value);       (* send(res, status, body), oldest first *)
  logs : list LogEntry;               (* oldest first *)
  rejected : option exn;              (* the retry promise, once bail settled it *)
}.

Definition fresh : World := {|
  nanoid_calls := 0;
  client_calls := [];
  responses := [];
  logs := [];
  rejected := None;
|}.

(** The collaborators of the module. *)
Record Env := {
  (* async-retry's [retries] option: attempts after the first one *)
  retries : nat;
  (* the n-th id nanoid() returns *)
  nanoid_gen : nat → string;
  (* the client's answer to its n-th call (counted from 0) *)
  square_api : nat → ClientCall → ClientOutcome;
  (* serve-handler's response (status, body) for a path *)
  static_asset : string → Z * value;
}.

Definition max_attempts (env : Env) : nat := S (retries env).

Inductive Res (A : Type) :=
| Ok (a : A)
| Throw (ex : exn).
Arguments Ok {A} a.
Arguments Throw {A} ex.

Definition M (A : Type) : Type := World → Res A * World.

Definition ret {A} (a : A) : M A := fun w => (Ok a, w).

Definition throw {A} (ex : exn) : M A := fun w => (Throw ex, w).

Definition bind {A B} (m : M A) (k : A → M B) : M B :=
  fun w =>
    match m w with
    | (Ok a, w') => k a w'
    | (Throw ex, w') => (Throw ex, w')
    end.

(** [try { body } catch (ex) { handler }] *)
Definition try_catch {A} (body : M A) (handler : exn → M A) : M A :=
  fun w =>
    match body w with
    | (Ok a, w') => (Ok a, w')
    | (Throw ex, w') => handler ex w'
    end.

Declare Scope handler_scope.
Delimit Scope handler_scope with handler.
Notation "'let*' x ':=' c1 'in' c2" := (bind c1 (fun x => c2))
  (at level 10, x name, c1 at level 100, c2 at level 200) : handler_scope.
Notation "'let*' ' p ':=' c1 'in' c2" := (bind c1 (fun p => c2))
  (at level 10, p pattern, c1 at level 100, c2 at level 200) : handler_scope.
Notation "c1 '>>' c2" := (bind c1 (fun _ => c2))
  (at level 100, c2 at level 200, right associativity) : handler_scope.
Open Scope handler_scope.

(** [v.k] as an expression that may throw. *)
Definition member (v : value) (k : string) : M value :=
  if nullish v
  then throw (TypeError ("Cannot read properties of undefined or null: " +:+ k))
  else ret (prop v k).

(** [v[i]] as an expression that may throw. *)
Definition index (v : value) (i : nat) : M value :=
  if nullish v
  then throw (TypeError "Cannot read properties of undefined or null")
  else ret (elem v i).

(** ** The helpers the entry module imports *)

Record Request := {
  method : string;
  (* the request target, [req.url]: the path and, after a [?], the query *)
  path : string;
  (* the body once decoded; [None] when it is not JSON *)
  body : option value;
}.

(** micro's [createError(code, message)] *)
Definition createError (code : Z) (message : string) : exn :=
  HttpError code message.

(** micro's [json(req)]: the decoded body, or a 400 when it does not parse. *)
Definition json (req : Request) : M value :=
  match body req with
  | Some payload => ret payload
  | None => throw (createError 400 "Invalid JSON")
  end.

(** micro's [send(res, code, obj)] *)
Definition send (code : Z) (obj : value) : M unit :=
  fun w =>
    (Ok tt, {| nanoid_calls := nanoid_calls w;
               client_calls := client_calls w;
               responses := responses w ++ [(code, obj)];
               logs := logs w;
               rejected := rejected w |}).

(** [res.headersSent] *)
Definition headersSent : M bool :=
  fun w => (Ok (negb (bool_decide (responses w = []))), w).

Definition log (l : Level) (text : string) (attempt : option nat) : M unit :=
  fun w =>
    (Ok tt, {| nanoid_calls := nanoid_calls w;
               client_calls := client_calls w;
               responses := responses w;
               logs := logs w ++ [{| lvl := l; msg := text; at_attempt := attempt |}];
               rejected := rejected w |}).

(** The logger module: a sink with three levels. *)
Module logger.

Definition debug := log Debug.

Definition info := log Info.

Definition error := log Error.

End logger.

Section Collaborators.

Context (env : Env).

(** [nanoid()]: the next id of the generator. *)
Definition nanoid : M value :=
  fun w =>
    (Ok (VStr (nanoid_gen env (nanoid_calls w))),
     {| nanoid_calls := S (nanoid_calls w);
        client_calls := client_calls w;
        responses := responses w;
        logs := logs w;
        rejected := rejected w |}).

(** One call to the Square client: it is recorded, and the client's answer
    is returned or thrown. *)
Definition call_client (c : ClientCall) : M (value * Z) :=
  fun w =>
    let w' := {| nanoid_calls := nanoid_calls w;
                 client_calls := client_calls w ++ [c];
                 responses := responses w;
                 logs := logs w;
                 rejected := rejected w |} in
    match square_api env (length (client_calls w)) c with
    | Returns result statusCode => (Ok (result, statusCode), w')
    | ThrowsApiError errors => (Throw (ApiError errors), w')
    | ThrowsOther message => (Throw (OtherError message), w')
    end.

(** Modelled from the spec: the retry executor is the async-retry package,
    which is not among the sources; section 4.2 gives its contract.  [bail]
    is the callback the executor hands to the operation: it settles the
    overall call as failed with the given cause. *)
Definition bail (cause : exn) : M unit :=
  fun w =>
    (Ok tt, {| nanoid_calls := nanoid_calls w;
               client_calls := client_calls w;
               responses := responses w;
               logs := logs w;
               rejected := match rejected w with
                           | Some first => Some first
                           | None => Some cause
                           end |}).

(** Modelled from the spec: the executor's call starts unsettled. *)
Definition new_promise : M unit :=
  fun w =>
    (Ok tt, {| nanoid_calls := nanoid_calls w;
               client_calls := client_calls w;
               responses := responses w;
               logs := logs w;
               rejected := None |}).

(** Modelled from the spec: the executor's loop (section 4.2).  The
    operation is invoked with the current 1-based attempt number.  If it
    signalled bail, the executor stops and the call resolves to that
    failure.  If it completed normally, its result is returned and no
    further attempt is made.  Any other failure is retried with the attempt
    number incremented, unless the maximum attempt count is reached, in
    which case the last failure is the overall result.  The waits between
    attempts are not modelled. *)
Fixpoint retry_from {A} (fn : (exn → M unit) → nat → M A)
    (retries_left : nat) (attempt : nat) : M A :=
  fun w =>
    let (r, w') := fn bail attempt w in
    match rejected w' with
    | Some cause => (Throw cause, w')
    | None =>
        match r with
        | Ok a => (Ok a, w')
        | Throw ex =>
            match retries_left with
            | O => (Throw ex, w')
            | S n => retry_from fn n (S attempt) w'
            end
        end
    end.

(** Modelled from the spec: [retry(fn)], at most [max_attempts] attempts,
    numbered from 1. *)
Definition retry {A} (fn : (exn → M unit) → nat → M A) : M A :=
  new_promise >> retry_from fn (retries env) 1.

End Collaborators.

(** ** The entry module *)

(** What an identifier of the module is bound to.  Validators and the
    Square client are the bindings the handlers reach through their names;
    the helpers, the logger and the handlers themselves are modelled by the
    definitions of this file and are opaque here. *)
Inductive binding :=
| BValidator (validate : value → bool)
| BClient
| BUndefined
| BOpaque.

(** [const { name } = require(...)]: an export that does not exist binds
    the name to undefined. *)
Definition imported (export : option (value → bool)) : binding :=
  match export with
  | Some validate => BValidator validate
  | None => BUndefined
  end.

(** The names an identifier of the module can resolve to: the [const]
    bindings of lines 2 to 16, the five function declarations, the names
    Node gives every module, and the one global the module uses.  Line 13
    takes [validatePaymentPayload] alone out of the exports of schema.js;
    line 15 binds the client as [square]. *)
Definition module_scope : gmap string binding :=
  list_to_map
    [ ("createError", BOpaque); ("json", BOpaque); ("send", BOpaque);
      ("router", BOpaque); ("get", BOpaque); ("post", BOpaque);
      ("staticHandler", BOpaque);
      ("retry", BOpaque);
      ("logger", BOpaque);
      ("validatePaymentPayload",
        imported (Schema.exports !! "validatePaymentPayload"));
      ("ApiError", BOpaque); ("square", BClient);
      ("nanoid", BOpaque);
      ("createPayment", BOpaque); ("createCard", BOpaque);
      ("listCards", BOpaque); ("searchCustomers", BOpaque);
      ("serveStatic", BOpaque);
      ("require", BOpaque); ("module", BOpaque); ("exports", BOpaque);
      ("__filename", BOpaque); ("__dirname", BOpaque);
      ("JSON", BOpaque) ].

(** Evaluating an identifier: its binding, or a ReferenceError. *)
Definition ident (x : string) : M binding :=
  match module_scope !! x with
  | Some b => ret b
  | None => throw (ReferenceError x)
  end.

(** [f(payload)] for a compiled validator [f]. *)
Definition call_validator (f : binding) (payload : value) : M bool :=
  match f with
  | BValidator validate => ret (validate payload)
  | _ => throw (TypeError "not a function")
  end.

Section Handlers.

Context (env : Env).

(** [c.paymentsApi.createPayment(request)] and its siblings. *)
Definition api (c : binding) (call : ClientCall) : M (value * Z) :=
  match c with
  | BClient => call_client env call
  | _ => throw (TypeError "Cannot read properties of undefined")
  end.

Definition paymentsApi_createPayment c request := api c (CreatePayment request).
Definition cardsApi_createCard c request := api c (CreateCard request).
Definition cardsApi_listCards c customerId := api c (ListCards customerId).
Definition customersApi_searchCustomers c query := api c (SearchCustomers query).

(** [a || b] where [b] has an effect. *)
Definition or_else (a : value) (b : M value) : M value :=
  if truthy a then ret a else b.

(** The function createPayment hands to [retry] (lines 26 to 82). *)
Definition createPayment_attempt (payload : value)
    (bail : exn → M unit) (attempt : nat) : M unit :=
  try_catch
    (logger.debug "Creating payment" (Some attempt) >>
     let* k := member payload "idempotencyKey" in
     let* idempotencyKey := or_else k (nanoid env) in
     let* locationId := member payload "locationId" in
     let* sourceId := member payload "sourceId" in
     let payment : gmap string value :=
       {[ "idempotencyKey" := idempotencyKey;
          "locationId" := locationId;
          "sourceId" := sourceId;
          "amountMoney" := VObj {[ "amount" := VStr "100";
                                   "currency" := VStr "USD" ]} ]} in
     let* verificationToken := member payload "verificationToken" in
     let payment :=
       if truthy verificationToken
       then <["verificationToken" := verificationToken]> payment
       else payment in
     let* square := ident "square" in
     let* '(result, statusCode) := paymentsApi_createPayment square (VObj payment) in
     logger.info "Payment succeeded!" None >>
     let* p := member result "payment" in
     let* id := member p "id" in
     let* status := member p "status" in
     let* receiptUrl := member p "receiptUrl" in
     let* orderId := member p "orderId" in
     send statusCode
       (VObj {[ "success" := VBool true;
                "payment" := VObj {[ "id" := id;
                                     "status" := status;
                                     "receiptUrl" := receiptUrl;
                                     "orderId" := orderId ]} ]}))
    (fun ex =>
       if instanceof_ApiError ex
       then logger.error "ex.errors" None >> bail ex
       else logger.error "Error creating payment on attempt" (Some attempt) >>
            throw ex).

Definition createPayment (req : Request) : M unit :=
  let* payload := json req in
  logger.debug "payload" None >>
  let* validatePaymentPayload := ident "validatePaymentPayload" in
  let* valid := call_validator validatePaymentPayload payload in
  if negb valid
  then throw (createError 400 "Bad Request")
  else retry env (createPayment_attempt payload).

(** The function createCard hands to [retry] (lines 91 to 131). *)
Definition createCard_attempt (payload : value)
    (bail : exn → M unit) (attempt : nat) : M unit :=
  try_catch
    (logger.debug "Creating card on file" (Some attempt) >>
     let* expMonth := member payload "expMonth" in
     let* expYear := member payload "expYear" in
     let* cardHolderName := member payload "cardHolderName" in
     let* customerId := member payload "customerID" in
     let card : gmap string value :=
       {[ "expMonth" := expMonth;
          "expYear" := expYear;
          "cardHolderName" := cardHolderName;
          "customerId" := customerId ]} in
     let* k := member payload "idempotencyKey" in
     let* idempotencyKey := or_else k (nanoid env) in
     let* sourceId := member payload "sourceId" in
     let* verificationToken := member payload "verificationToken" in
     let cardRequest : gmap string value :=
       {[ "card" := VObj card;
          "idempotencyKey" := idempotencyKey;
          "sourceId" := sourceId;
          "verificationToken" := verificationToken ]} in
     let* square := ident "square" in
     let* '(result, statusCode) := cardsApi_createCard square (VObj cardRequest) in
     logger.info "Create card succeeded!" None >>
     let* c := member result "card" in
     let* id := member c "id" in
     send statusCode
       (VObj {[ "success" := VBool true;
                "card" := VObj {[ "id" := id ]} ]}))
    (fun ex =>
       if instanceof_ApiError ex
       then logger.error "ex.errors" None >> bail ex
       else logger.error "Error creating payment on attempt" (Some attempt) >>
            throw ex).

Definition createCard (req : Request) : M unit :=
  let* payload := json req in
  logger.debug "payload" None >>
  let* validateCardPayload := ident "validateCardPayload" in
  let* valid := call_validator validateCardPayload payload in
  if negb valid
  then throw (createError 400 "Bad Request")
  else retry env (createCard_attempt payload).

(** The function listCards hands to [retry] (lines 143 to 172). *)
Definition listCards_attempt (payload : value)
    (bail : exn → M unit) (attempt : nat) : M unit :=
  try_catch
    (logger.debug "Listing customer cards" (Some attempt) >>
     let* client := ident "client" in
     let* customerId := member payload "customerId" in
     let* '(result, statusCode) := cardsApi_listCards client customerId in
     logger.info "Cards found!" None >>
     let* first := index result 0 in
     let* cardsResult := member first "card" in
     let* id := member cardsResult "id" in
     let* cardBrand := member cardsResult "cardBrand" in
     let* last4 := member cardsResult "last4" in
     send statusCode
       (VObj {[ "success" := VBool true;
                "card" := VObj {[ "id" := id;
                                  "card_brand" := cardBrand;
                                  "last4" := last4 ]} ]}))
    (fun ex =>
       if instanceof_ApiError ex
       then logger.error "ex.errors" None >> bail ex
       else logger.error "Error searching for customer on attempt" (Some attempt) >>
            throw ex).

Definition listCards (req : Request) : M unit :=
  let* payload := json req in
  logger.debug "payload" None >>
  let* validateListCardsPayload := ident "validateListCardsPayload" in
  let* valid := call_validator validateListCardsPayload payload in
  if negb valid
  then throw (createError 400 "Bad Request")
  else retry env (listCards_attempt payload).

(** The function searchCustomers hands to [retry] (lines 183 to 220). *)
Definition searchCustomers_attempt (payload : value)
    (bail : exn → M unit) (attempt : nat) : M unit :=
  try_catch
    (logger.debug "Searching for customer" (Some attempt) >>
     let* client := ident "client" in
     let* emailAddress := member payload "emailAddress" in
     let query : gmap string value :=
       {[ "query" :=
            VObj {[ "filter" :=
              VObj {[ "emailAddress" :=
                VObj {[ "exact" := emailAddress ]} ]} ]} ]} in
     let* '(result, statusCode) := customersApi_searchCustomers client (VObj query) in
     logger.info "Customer found!" None >>
     let* first := index result 0 in
     let* customerResult := member first "customer" in
     let* id := member customerResult "id" in
     let* givenName := member customerResult "givenName" in
     let* familyName := member customerResult "familyName" in
     send statusCode
       (VObj {[ "success" := VBool true;
                "customer" := VObj {[ "id" := id;
                                      "given_name" := givenName;
                                      "family_name" := familyName ]} ]}))
    (fun ex =>
       if instanceof_ApiError ex
       then logger.error "ex.errors" None >> bail ex
       else logger.error "Error searching for customer on attempt" (Some attempt) >>
            throw ex).

Definition searchCustomers (req : Request) : M unit :=
  let* payload := json req in
  logger.debug "payload" None >>
  let* validateSearchCustomerPayload := ident "validateSearchCustomerPayload" in
  let* valid := call_validator validateSearchCustomerPayload payload in
  if negb valid
  then throw (createError 400 "Bad Request")
  else retry env (searchCustomers_attempt payload).

(** serve-handler answers every request it is given (a file, a listing or
    its own 404 page). *)
Definition staticHandler (req : Request) : M unit :=
  let (code, content) := static_asset env (path req) in
  send code content.

Definition serveStatic (req : Request) : M unit :=
  logger.debug "Handling request" None >>
  staticHandler req.

End Handlers.

(** ** Routing (microrouter) *)

Module microrouter.

(** url-pattern: a pattern matches a whole path; [*] stands for any run of
    characters, every other character for itself. *)
Fixpoint url_match (pattern : string) : string → bool :=
  match pattern with
  | "" => fun p => String.eqb p ""
  | String c rest =>
      if Ascii.eqb c "*"%char
      then fix wildcard (p : string) : bool :=
             url_match rest p
             || match p with
                | "" => false
                | String _ p' => wildcard p'
                end
      else fun p =>
             match p with
             | "" => false
             | String d p' => Ascii.eqb c d && url_match rest p'
             end
  end.

(** [url.parse(req.url).pathname] for a request target in origin form
    (which starts with a slash and has no backslash): the target up to its
    query string. *)
Fixpoint pathname (target : string) : string :=
  match target with
  | "" => ""
  | String c rest =>
      if Ascii.eqb c "?"%char then "" else String c (pathname rest)
  end.

(** A route is a function of the request: the handler's result when the
    method and the pathname of the target match, undefined otherwise.  The
    handlers are async functions without a return value, so their result is
    undefined too. *)
Definition route (m : string) (givenPath : string) (handler : Request → M unit)
    (req : Request) : M value :=
  if url_match givenPath (pathname (path req)) && String.eqb (method req) m
  then handler req >> ret VUndefined
  else ret VUndefined.

Definition get := route "GET".
Definition post := route "POST".

(** [router(...funcs)]: the routes are tried in the order given; the first
    one that returns a truthy result or has sent the response ends the
    loop; an exception leaves it; when no route is left the result is
    null. *)
Fixpoint router (funcs : list (Request → M value)) (req : Request) : M value :=
  match funcs with
  | [] => ret VNull
  | fn :: rest =>
      let* result := fn req in
      let* sent := headersSent in
      if truthy result || sent then ret result else router rest req
  end.

End microrouter.

(** [module.exports] of the entry module: the route table, lines 232 to 238. *)
Definition module_exports (env : Env) : Request → M value :=
  microrouter.router
    [ microrouter.post "/cof" (createCard env);
      microrouter.post "/payment" (createPayment env);
      microrouter.get "/*" (serveStatic env);
      microrouter.get "/cards" (listCards env);
      microrouter.post "/searchCustomer" (searchCustomers env) ].


(** ** What a run of a handler shows *)

Definition POST (p : string) (payload : value) : Request :=
  {| method := "POST"; path := p; body := Some payload |}.

Definition GET (p : string) (payload : option value) : Request :=
  {| method := "GET"; path := p; body := payload |}.

(** The idempotency keys of the calls the client received, in order. *)
Definition forwarded_keys (w : World) : list value :=
  map (fun c => prop (call_arg c) "idempotencyKey") (client_calls w).

(** The attempt numbers the retried operation was invoked with, in order:
    each invocation starts by logging its number at debug level under the
    operation's text. *)
Definition attempt_numbers (text : string) (w : World) : list nat :=
  omap (fun e =>
          match lvl e with
          | Debug => if String.eqb (msg e) text then at_attempt e else None
          | _ => None
          end) (logs w).

(** The amount of lines 40 to 46. *)
Definition fixed_amountMoney : value :=
  VObj {[ "amount" := VStr "100"; "currency" := VStr "USD" ]}.

(** The key an attempt started in world [w] forwards: the payload's when it
    is truthy, else the next id of nanoid. *)
Definition next_key (env : Env) (payload : value) (w : World) : value :=
  if truthy (prop payload "idempotencyKey")
  then prop payload "idempotencyKey"
  else VStr (nanoid_gen env (nanoid_calls w)).

(** The ids nanoid has returned once [n] were drawn. *)
Definition drawn_keys (env : Env) (n : nat) : list value :=
  map (fun i => VStr (nanoid_gen env i)) (seq 0 n).

(** The key discipline the code keeps over the calls of one request: with
    a truthy key in the payload, no id is drawn and every call carries the
    payload's key; without one, every call draws its own id, so the i-th
    call carries the i-th id. *)
Definition key_discipline (env : Env) (payload : value) (w : World) : Prop :=
  if truthy (prop payload "idempotencyKey")
  then nanoid_calls w = 0 ∧
       forwarded_keys w
         = replicate (length (client_calls w)) (prop payload "idempotencyKey")
  else nanoid_calls w = length (client_calls w) ∧
       forwarded_keys w = drawn_keys env (length (client_calls w)).

(** The [payment] object of lines 31 to 54, for a given key. *)
Definition payment_request (payload : value) (idempotencyKey : value) : value :=
  let payment : gmap string value :=
    {[ "idempotencyKey" := idempotencyKey;
       "locationId" := prop payload "locationId";
       "sourceId" := prop payload "sourceId";
       "amountMoney" := VObj {[ "amount" := VStr "100";
                                "currency" := VStr "USD" ]} ]} in
  VObj (if truthy (prop payload "verificationToken")
        then <["verificationToken" := prop payload "verificationToken"]> payment
        else payment).

(** The body of lines 62 to 70, for a given result. *)
Definition payment_body (result : value) : value :=
  let p := prop result "payment" in
  VObj {[ "success" := VBool true;
          "payment" := VObj {[ "id" := prop p "id";
                               "status" := prop p "status";
                               "receiptUrl" := prop p "receiptUrl";
                               "orderId" := prop p "orderId" ]} ]}.

(** The client fails with something that is not an ApiError. *)
Definition transient (o : ClientOutcome) : bool :=
  match o with
  | ThrowsOther _ => true
  | _ => false
  end.

(** The exception a failing answer of the client is thrown as. *)
Definition thrown (o : ClientOutcome) : option exn :=
  match o with
  | Returns _ _ => None
  | ThrowsApiError errors => Some (ApiError errors)
  | ThrowsOther message => Some (OtherError message)
  end.

(** The card payload's members as the spec lists them. *)
Definition is_string (v : value) : Prop := ∃ s, v = VStr s.

Definition is_uint32 (v : value) : Prop :=
  ∃ z, v = VNum (NInt z) ∧ (0 ≤ z ≤ 4294967295)%Z.

(** ** Sample requests and collaborators *)

(** The example of the spec: no amount, no key, no token. *)
Definition payload_min : value :=
  VObj {[ "sourceId" := VStr "src1"; "locationId" := VStr "loc1" ]}.

Definition sample_ids (n : nat) : string :=
  match n with
  | 0 => "V1StGXR8_Z5jdHi6B-myT"
  | 1 => "Uakgb_J5m9g-0JDMbcJqL"
  | _ => "mN7kXw2Q_p0sRt4Yv-zAb"
  end.

Definition sample_result : value :=
  VObj {[ "payment" :=
            VObj {[ "id" := VStr "pay_1"; "status" := VStr "COMPLETED";
                    "receiptUrl" := VStr "https://squareup.com/receipt/1";
                    "orderId" := VStr "ord_1" ]} ]}.

Definition not_found : Z * value := (404%Z, VStr "Not Found").

(** The client answers every call. *)
Definition env_up : Env := {|
  retries := 2;
  nanoid_gen := sample_ids;
  square_api := fun _ _ => Returns sample_result 200;
  static_asset := fun _ => not_found;
|}.

(** The first call is lost, the following ones are answered. *)
Definition env_flaky : Env := {|
  retries := 2;
  nanoid_gen := sample_ids;
  square_api := fun n _ =>
    match n with
    | 0 => ThrowsOther "ECONNRESET"
    | _ => Returns sample_result 200
    end;
  static_asset := fun _ => not_found;
|}.

(** Every call is lost. *)
Definition env_down : Env := {|
  retries := 2;
  nanoid_gen := sample_ids;
  square_api := fun _ _ => ThrowsOther "ECONNRESET";
  static_asset := fun _ => not_found;
|}.

(** The platform rejects the request. *)
Definition env_rejecting : Env := {|
  retries := 2;
  nanoid_gen := sample_ids;
  square_api := fun _ _ => ThrowsApiError (VArr [VStr "INVALID_CARD_DATA"]);
  static_asset := fun _ => not_found;
|}.

(** A valid payload that asks for its own amount. *)
Definition payload_greedy : value :=
  VObj {[ "sourceId" := VStr "src1"; "locationId" := VStr "loc1";
          "amount" := VNum (NInt 5000000) ]}.

(** The members of [cardSchema]. *)
Definition card_members : list string :=
  ["expMonth"; "expYear"; "cardHolderName"; "customerId"; "idempotencyKey";
   "sourceId"; "verificationToken"].

(** A card payload with the five members the spec calls required. *)
Definition card_five : gmap string value :=
  {[ "expMonth" := VNum (NInt 12); "expYear" := VNum (NInt 2030);
     "cardHolderName" := VStr "Ada Lovelace"; "customerId" := VStr "cust_1";
     "sourceId" := VStr "cnon:card-nonce-ok" ]}.

(** The same with the two members the spec calls optional. *)
Definition card_seven : gmap string value :=
  <["idempotencyKey" := VStr "key-1"]>
    (<["verificationToken" := VStr "verf-1"]> card_five).

(** The run of the spec's example when the first call is lost. *)
Definition flaky_run : Res unit * World :=
  createPayment env_flaky (POST "/payment" payload_min) fresh.

(** ** Further observations *)

(** The [cardRequest] object of lines 95 to 106, for a given key. *)
Definition card_request (payload : value) (idempotencyKey : value) : value :=
  let card : gmap string value :=
    {[ "expMonth" := prop payload "expMonth";
       "expYear" := prop payload "expYear";
       "cardHolderName" := prop payload "cardHolderName";
       "customerId" := prop payload "customerID" ]} in
  VObj {[ "card" := VObj card;
          "idempotencyKey" := idempotencyKey;
          "sourceId" := prop payload "sourceId";
          "verificationToken" := prop payload "verificationToken" ]}.

(** The body of lines 114 to 119, for a given result. *)
Definition card_body (result : value) : value :=
  VObj {[ "success" := VBool true;
          "card" := VObj {[ "id" := prop (prop result "card") "id" ]} ]}.

(** The answers of the client after which an attempt ends in an exception
    that is not an ApiError: a failure that is not an ApiError, or a result
    whose member [part] cannot be read from. *)
Definition attempt_fails (part : string) (o : ClientOutcome) : bool :=
  match o with
  | ThrowsOther _ => true
  | ThrowsApiError _ => false
  | Returns result _ => nullish result || nullish (prop result part)
  end.

(** The members of [paymentSchema], required and optional. *)
Definition payment_members : list string :=
  ["sourceId"; "locationId"; "amount"; "idempotencyKey"; "verificationToken"].

(** The members of the object createPayment forwards. *)
Definition forwarded_members : list string :=
  ["idempotencyKey"; "locationId"; "sourceId"; "amountMoney";
   "verificationToken"].

(** A member that is absent or satisfies [P]. *)
Definition absent_or (P : value → Prop) (v : value) : Prop :=
  v = VUndefined ∨ P v.

(** A pattern without wildcard. *)
Definition literal (pattern : string) : Prop :=
  Forall (fun c => c ≠ "*"%char) (list_ascii_of_string pattern).


(** The route table without its fourth entry, [get('/cards', listCards)]. *)
Definition routes_without_cards (env : Env) : list (Request → M value) :=
  [ microrouter.post "/cof" (createCard env);
    microrouter.post "/payment" (createPayment env);
    microrouter.get "/*" (serveStatic env);
    microrouter.post "/searchCustomer" (searchCustomers env) ].

(** The first call is lost, the following ones are rejected. *)
Definition env_flaky_rejecting : Env := {|
  retries := 2;
  nanoid_gen := sample_ids;
  square_api := fun n _ =>
    match n with
    | 0 => ThrowsOther "ECONNRESET"
    | _ => ThrowsApiError (VArr [VStr "INVALID_CARD_DATA"])
    end;
  static_asset := fun _ => not_found;
|}.

(** The client answers every call with a result that has no payment. *)
Definition env_malformed : Env := {|
  retries := 2;
  nanoid_gen := sample_ids;
  square_api := fun _ _ => Returns (VObj ∅) 200;
  static_asset := fun _ => not_found;
|}.

(** The client answers every call with a stored card. *)
Definition env_cards : Env := {|
  retries := 2;
  nanoid_gen := sample_ids;
  square_api := fun n _ =>
    match n with
    | 0 => ThrowsOther "ETIMEDOUT"
    | _ => Returns (VObj {[ "card" := VObj {[ "id" := VStr "ccof:1" ]} ]}) 200
    end;
  static_asset := fun _ => not_found;
|}.

(** Running a handler symbolically: unfold the monad and the helpers, keep
    the records of the world in normal form. *)
Ltac fields := cbn [nanoid_calls client_calls responses logs rejected nullish].

Ltac run_handler :=
  cbv [try_catch bind logger.debug logger.info logger.error log member index
       ret throw or_else nanoid send bail
       paymentsApi_createPayment cardsApi_createCard cardsApi_listCards
       customersApi_searchCustomers api call_client instanceof_ApiError];
  fields.

Ltac case_nullish v := destruct (nullish v) eqn:?; fields.

(** ** Facts about the schemas and the scope *)

Lemma compile_obj s p : Schema.compile s p = true → ∃ m, p = VObj m.
Proof. destruct p; simpl; try discriminate. eauto. Qed.

Lemma ident_validatePaymentPayload :
  ident "validatePaymentPayload" = ret (BValidator Schema.validatePaymentPayload).
Proof. reflexivity. Qed.

Lemma ident_square : ident "square" = ret BClient.
Proof. reflexivity. Qed.

Lemma ident_validateCardPayload :
  ident "validateCardPayload" = throw (ReferenceError "validateCardPayload").
Proof. vm_compute. reflexivity. Qed.

Lemma ident_validateListCardsPayload :
  ident "validateListCardsPayload" = throw (ReferenceError "validateListCardsPayload").
Proof. vm_compute. reflexivity. Qed.

Lemma ident_validateSearchCustomerPayload :
  ident "validateSearchCustomerPayload"
  = throw (ReferenceError "validateSearchCustomerPayload").
Proof. vm_compute. reflexivity. Qed.

Lemma ident_client : ident "client" = throw (ReferenceError "client").
Proof. vm_compute. reflexivity. Qed.

Lemma validate_string v : Schema.validate_type Schema.string_t v = true ↔ is_string v.
Proof.
  split.
  - destruct v; try discriminate. intros _. eexists; reflexivity.
  - intros [s ->]. reflexivity.
Qed.

Lemma validate_uint32 v : Schema.validate_type Schema.uint32_t v = true ↔ is_uint32 v.
Proof.
  split.
  - destruct v as [| | |[z| | |]| | |]; try discriminate. cbn.
    intros [H1 H2]%andb_prop. exists z. split; [reflexivity|lia].
  - intros (z & -> & H). cbn. apply andb_true_intro. split; lia.
Qed.

(** The schemas at work on the sample payloads. *)
Example payment_min_accepted : Schema.validatePaymentPayload payload_min = true.
Proof. vm_compute. reflexivity. Qed.

Example payment_amount_accepted : Schema.validatePaymentPayload payload_greedy = true.
Proof. vm_compute. reflexivity. Qed.

Example card_seven_accepted : Schema.validateCardPayload (VObj card_seven) = true.
Proof. vm_compute. reflexivity. Qed.

Example card_extra_member_rejected :
  Schema.validateCardPayload (VObj (<["nickname" := VStr "work"]> card_seven)) = false.
Proof. vm_compute. reflexivity. Qed.

Example payment_fractional_amount_rejected :
  Schema.validatePaymentPayload
    (VObj {[ "sourceId" := VStr "src1"; "locationId" := VStr "loc1";
             "amount" := VNum NFrac ]}) = false.
Proof. vm_compute. reflexivity. Qed.

Lemma payment_request_key payload k :
  prop (payment_request payload k) "idempotencyKey" = k.
Proof. unfold payment_request. destruct (truthy _); vm_compute; reflexivity. Qed.

Lemma payment_request_amountMoney payload k :
  prop (payment_request payload k) "amountMoney" = fixed_amountMoney.
Proof. unfold payment_request. destruct (truthy _); vm_compute; reflexivity. Qed.

Lemma payment_request_amount payload k :
  prop (payment_request payload k) "amount" = VUndefined.
Proof. unfold payment_request. destruct (truthy _); vm_compute; reflexivity. Qed.

Section Pipeline.
Context (env : Env).

(** One attempt of createPayment on an object payload: the call it makes and
    what it leaves, by the client's answer. *)
Lemma createPayment_attempt_spec m num w r w' :
  let payload := VObj m in
  let req := payment_request payload (next_key env payload w) in
  createPayment_attempt env payload bail num w = (r, w') →
  nanoid_calls w'
    = (if truthy (prop payload "idempotencyKey")
       then nanoid_calls w else S (nanoid_calls w)) ∧
  client_calls w' = client_calls w ++ [CreatePayment req] ∧
  attempt_numbers "Creating payment" w'
    = attempt_numbers "Creating payment" w ++ [num] ∧
  match square_api env (length (client_calls w)) (CreatePayment req) with
  | ThrowsOther message =>
      r = Throw (OtherError message) ∧ responses w' = responses w ∧
      rejected w' = rejected w
  | ThrowsApiError errors =>
      r = Ok tt ∧ responses w' = responses w ∧
      rejected w' = Some (default (ApiError errors) (rejected w))
  | Returns result statusCode =>
      if nullish result || nullish (prop result "payment")
      then (∃ message, r = Throw (TypeError message)) ∧
           responses w' = responses w ∧ rejected w' = rejected w
      else r = Ok tt ∧
           responses w' = responses w ++ [(statusCode, payment_body result)] ∧
           rejected w' = rejected w
  end.
Proof.
  intros payload req. subst payload req.
  unfold createPayment_attempt, payment_request, next_key, payment_body, attempt_numbers.
  rewrite ident_square. run_handler.
  destruct (truthy (prop (VObj m) "idempotencyKey")),
           (truthy (prop (VObj m) "verificationToken")); fields.
  all: match goal with |- context [square_api ?e ?n ?c] =>
         destruct (square_api e n c) as [result statusCode| |] end; fields.
  all: try (case_nullish result; [|case_nullish (prop result "payment")]).
  all: intros [= <- <-]; fields; cbn [orb].
  all: rewrite ?omap_app; cbn [omap lvl msg at_attempt String.eqb Ascii.eqb Bool.eqb]; rewrite ?app_nil_r.
  all: repeat split; eauto.
  all: destruct (rejected w); reflexivity.
Qed.

(** One attempt of createCard, on any payload: it makes no call and draws no
    id, or makes one call whose key is the payload's or the id it drew. *)
Lemma createCard_attempt_calls payload num w r w' :
  createCard_attempt env payload bail num w = (r, w') →
  (nanoid_calls w' = nanoid_calls w ∧ client_calls w' = client_calls w) ∨
  (∃ req,
      prop req "idempotencyKey" = next_key env payload w ∧
      nanoid_calls w'
        = (if truthy (prop payload "idempotencyKey")
           then nanoid_calls w else S (nanoid_calls w)) ∧
      client_calls w' = client_calls w ++ [CreateCard req]).
Proof.
  unfold createCard_attempt, next_key.
  rewrite ident_square. run_handler.
  case_nullish payload.
  { intros [= <- <-]; left; split; reflexivity. }
  destruct (truthy (prop payload "idempotencyKey")); fields.
  all: match goal with |- context [square_api ?e ?n ?c] =>
         destruct (square_api e n c) as [result statusCode| |] end; fields.
  all: try (case_nullish result; [|case_nullish (prop result "card")]).
  all: intros [= <- <-]; right; eexists; fields.
  all: (split; [|split; reflexivity]).
  all: vm_compute; reflexivity.
Qed.
(** An invariant of every attempt is an invariant of the retry loop. *)
Lemma retry_from_inv {A} (P : World → Prop) (fn : (exn → M unit) → nat → M A) :
  (∀ num w r w', fn bail num w = (r, w') → P w → P w') →
  ∀ n num w r w', retry_from fn n num w = (r, w') → P w → P w'.
Proof.
  intros Hfn. induction n as [|n IH]; intros num w r w'; cbn [retry_from];
    destruct (fn bail num w) as [r1 w1] eqn:E;
    destruct (rejected w1); destruct r1; intros H Hw;
    try (injection H as <- <-); eauto.
Qed.

(** createPayment up to the retry loop. *)
Lemma createPayment_unfold meth pth payload w :
  createPayment env {| method := meth; path := pth; body := Some payload |} w
  = if Schema.validatePaymentPayload payload
    then retry env (createPayment_attempt env payload) (snd (logger.debug "payload" None w))
    else (Throw (HttpError 400 "Bad Request"), snd (logger.debug "payload" None w)).
Proof.
  unfold createPayment, json. cbn [body]. rewrite ident_validatePaymentPayload.
  cbv [bind ret logger.debug log call_validator throw createError]. cbn [snd].
  destruct (Schema.validatePaymentPayload payload); reflexivity.
Qed.

(** When the client fails transiently on every call, the loop makes one call
    per attempt, numbers the attempts consecutively, and ends with the
    failure of the last call. *)
Lemma createPayment_retry_exhausted m :
  ∀ n num w r w',
    rejected w = None →
    (∀ i c, i < length (client_calls w) + S n → transient (square_api env i c) = true) →
    retry_from (createPayment_attempt env (VObj m)) n num w = (r, w') →
    length (client_calls w') = length (client_calls w) + S n ∧
    attempt_numbers "Creating payment" w'
      = attempt_numbers "Creating payment" w ++ seq num (S n) ∧
    responses w' = responses w ∧
    ∃ c ex, last (client_calls w') = Some c ∧
            thrown (square_api env (length (client_calls w) + n) c) = Some ex ∧
            instanceof_ApiError ex = false ∧
            r = Throw ex.
Proof.
  induction n as [|n IH]; intros num w r w' Hrej Hdown; cbn [retry_from];
    destruct (createPayment_attempt env (VObj m) bail num w) as [r1 w1] eqn:E;
    apply createPayment_attempt_spec in E as (Hn & Hc & Ha & Ho);
    specialize (Hdown (length (client_calls w))
                  (CreatePayment (payment_request (VObj m) (next_key env (VObj m) w)))
                  ltac:(lia)) as Ht;
    destruct (square_api env (length (client_calls w)) _) as [| |message] eqn:Hs;
    try discriminate; destruct Ho as (-> & Hr & Hj); rewrite Hj, Hrej.
  - intros [= <- <-]. rewrite Hc, length_app, last_snoc, Nat.add_0_r. cbn [length seq].
    split_and!; eauto. eexists _, _. rewrite Hs. cbn [thrown]. split_and!; eauto.
  - intros H. apply IH in H as (Hl & Hnum & Hresp & c & ex & Hlast & Hth & Hex & ->).
    + rewrite Hc, length_app in Hl, Hth. cbn [length] in Hl, Hth.
      split_and!.
      * lia.
      * rewrite Hnum, Ha, <- app_assoc. reflexivity.
      * congruence.
      * exists c, ex. split_and!; eauto.
        replace (length (client_calls w) + S n) with (length (client_calls w) + 1 + n) by lia.
        assumption.
    + congruence.
    + intros i c Hi. apply Hdown. rewrite Hc, length_app in Hi. cbn [length] in Hi. lia.
Qed.

Lemma drawn_keys_S n :
  drawn_keys env (S n) = drawn_keys env n ++ [VStr (nanoid_gen env n)].
Proof. unfold drawn_keys. rewrite seq_S, map_app. reflexivity. Qed.

(** A call with the key of [next_key], with an id drawn exactly when the
    payload has no key, keeps the discipline. *)
Lemma key_discipline_step payload w w' c :
  nanoid_calls w'
    = (if truthy (prop payload "idempotencyKey")
       then nanoid_calls w else S (nanoid_calls w)) →
  client_calls w' = client_calls w ++ [c] →
  prop (call_arg c) "idempotencyKey" = next_key env payload w →
  key_discipline env payload w → key_discipline env payload w'.
Proof.
  unfold key_discipline, next_key, forwarded_keys. intros Hn Hc Hk.
  destruct (truthy (prop payload "idempotencyKey")); intros [H1 H2];
    rewrite Hn, Hc, map_app, length_app, H2; cbn [length map]; rewrite Nat.add_1_r, Hk.
  - rewrite replicate_S_end. split; [assumption | reflexivity].
  - rewrite drawn_keys_S, H1. split; reflexivity.
Qed.

Lemma key_discipline_same payload w w' :
  nanoid_calls w' = nanoid_calls w → client_calls w' = client_calls w →
  key_discipline env payload w → key_discipline env payload w'.
Proof. unfold key_discipline, forwarded_keys. now intros -> ->. Qed.

Lemma createPayment_attempt_keys m num w r w' :
  createPayment_attempt env (VObj m) bail num w = (r, w') →
  key_discipline env (VObj m) w → key_discipline env (VObj m) w'.
Proof.
  intros (Hn & Hc & _)%createPayment_attempt_spec.
  eapply key_discipline_step; eauto. cbn [call_arg]. apply payment_request_key.
Qed.

Lemma createCard_attempt_keys payload num w r w' :
  createCard_attempt env payload bail num w = (r, w') →
  key_discipline env payload w → key_discipline env payload w'.
Proof.
  intros [[Hn Hc] | (req & Hk & Hn & Hc)]%createCard_attempt_calls.
  - now apply key_discipline_same.
  - eapply key_discipline_step; eauto.
Qed.

Lemma createPayment_attempt_amount m num w r w' :
  createPayment_attempt env (VObj m) bail num w = (r, w') →
  Forall (fun c => ∃ req, c = CreatePayment req ∧
                          prop req "amountMoney" = fixed_amountMoney ∧
                          prop req "amount" = VUndefined) (client_calls w) →
  Forall (fun c => ∃ req, c = CreatePayment req ∧
                          prop req "amountMoney" = fixed_amountMoney ∧
                          prop req "amount" = VUndefined) (client_calls w').
Proof.
  intros (_ & -> & _)%createPayment_attempt_spec H.
  apply Forall_app. split; [assumption|]. constructor; [|constructor].
  eexists. split_and!; [reflexivity | apply payment_request_amountMoney | apply payment_request_amount].
Qed.

(** When every attempt makes exactly one call, the loop makes between one
    and [S n] calls. *)
Lemma retry_from_calls {A} (fn : (exn → M unit) → nat → M A) :
  (∀ num w r w', fn bail num w = (r, w') →
     length (client_calls w') = S (length (client_calls w))) →
  ∀ n num w r w', retry_from fn n num w = (r, w') →
    length (client_calls w) < length (client_calls w') ≤ length (client_calls w) + S n.
Proof.
  intros Hfn. induction n as [|n IH]; intros num w r w'; cbn [retry_from];
    destruct (fn bail num w) as [r1 w1] eqn:E; apply Hfn in E;
    destruct (rejected w1); destruct r1; intros H;
    try (injection H as <- <-); try lia.
  apply IH in H. lia.
Qed.

Lemma createPayment_attempt_one_call m num w r w' :
  createPayment_attempt env (VObj m) bail num w = (r, w') →
  length (client_calls w') = S (length (client_calls w)).
Proof.
  intros (_ & -> & _)%createPayment_attempt_spec. rewrite length_app. cbn. lia.
Qed.

(** The router, one route at a time. *)
Lemma router_skip fn rest req w :
  fn req w = (Ok VUndefined, w) → responses w = [] →
  microrouter.router (fn :: rest) req w = microrouter.router rest req w.
Proof.
  intros Hfn Hw. cbn [microrouter.router]. unfold bind, headersSent.
  rewrite Hfn, Hw, bool_decide_eq_true_2 by reflexivity. reflexivity.
Qed.

Lemma router_stop fn rest req w v w' :
  fn req w = (Ok v, w') → responses w' ≠ [] →
  microrouter.router (fn :: rest) req w = (Ok v, w').
Proof.
  intros Hfn Hw. cbn [microrouter.router]. unfold bind, headersSent.
  rewrite Hfn, bool_decide_eq_false_2 by assumption.
  rewrite orb_true_r. reflexivity.
Qed.

Lemma route_no_match m p handler req w :
  microrouter.url_match p (microrouter.pathname (path req))
  && String.eqb (method req) m = false →
  microrouter.route m p handler req w = (Ok VUndefined, w).
Proof. unfold microrouter.route. now intros ->. Qed.

Lemma serveStatic_run req w :
  serveStatic env req w
  = (Ok tt,
     {| nanoid_calls := nanoid_calls w;
        client_calls := client_calls w;
        responses := responses w ++ [static_asset env (path req)];
        logs := logs w ++ [{| lvl := Debug; msg := "Handling request";
                              at_attempt := None |}];
        rejected := rejected w |}).
Proof.
  unfold serveStatic, staticHandler.
  destruct (static_asset env (path req)) as [code content].
  reflexivity.
Qed.

End Pipeline.


(** ** The claims *)

(** C1, as stated, fails: the key is computed inside the function handed to
    [retry] (lines 30 and 103), not before the loop.  For the spec's example
    payload, which has no idempotencyKey, with the first call lost and the
    second answered, nanoid is drawn twice and the two calls carry two
    different keys. *)
Lemma C1_fresh_key_on_every_attempt :
  Schema.validatePaymentPayload payload_min = true ∧
  prop payload_min "idempotencyKey" = VUndefined ∧
  fst flaky_run = Ok tt ∧
  length (client_calls (snd flaky_run)) = 2 ∧
  nanoid_calls (snd flaky_run) = 2 ∧
  forwarded_keys (snd flaky_run)
    = [VStr "V1StGXR8_Z5jdHi6B-myT"; VStr "Uakgb_J5m9g-0JDMbcJqL"] ∧
  forwarded_keys (snd flaky_run) !! 0 ≠ forwarded_keys (snd flaky_run) !! 1.
Proof.
  split_and!; try (vm_compute; reflexivity).
  vm_compute. discriminate.
Qed.

(** C1, amended: over the calls of one create-payment request, and over the
    calls of the retried create-card operation, the key discipline is the
    one of [key_discipline]: when the payload carries a truthy
    idempotencyKey no id is generated and every call carries that key; when
    it does not, the key is computed anew on every attempt, so as many ids
    are drawn as calls are made and the i-th call carries the i-th id.  A
    valid create-payment payload leads to between one and max-attempts
    calls, an invalid one to none. *)
Theorem C1_key_per_attempt (env : Env) (payload : value) :
  let w := snd (createPayment env (POST "/payment" payload) fresh) in
  let w' := snd (retry env (createCard_attempt env payload) fresh) in
  key_discipline env payload w ∧
  key_discipline env payload w' ∧
  (if Schema.validatePaymentPayload payload
   then (1 ≤ length (client_calls w) ≤ max_attempts env)%nat
   else client_calls w = []).
Proof.
  intros w w'. subst w w'.
  assert (Hinit : ∀ l, key_discipline env payload
            {| nanoid_calls := 0; client_calls := []; responses := [];
               logs := l; rejected := None |}).
  { intros l. unfold key_discipline, forwarded_keys.
    cbn [nanoid_calls client_calls length map].
    destruct (truthy _); split; reflexivity. }
  unfold POST. rewrite createPayment_unfold.
  unfold retry, bind. cbn [new_promise logger.debug log snd].
  destruct (retry_from (createCard_attempt _ _) _ _ _) as [r' w2] eqn:E2.
  pose proof (retry_from_inv _ _ (createCard_attempt_keys env payload)
                _ _ _ _ _ E2 (Hinit _)) as Hcard.
  destruct (Schema.validatePaymentPayload payload) eqn:Hvalid.
  - apply compile_obj in Hvalid as [m ->].
    destruct (retry_from (createPayment_attempt _ _) _ _ _) as [r w1] eqn:E1.
    cbn [snd]. split_and!.
    + apply (retry_from_inv _ _ (createPayment_attempt_keys env m) _ _ _ _ _ E1), Hinit.
    + exact Hcard.
    + apply retry_from_calls in E1; [|apply createPayment_attempt_one_call].
      cbn [client_calls fresh length] in E1. lia.
    + apply retry_from_calls in E1; [|apply createPayment_attempt_one_call].
      cbn [client_calls fresh length] in E1. unfold max_attempts. lia.
  - cbn [snd]. split_and!; [apply Hinit | exact Hcard | reflexivity].
Qed.



(** C3: for every valid create-payment payload, every request forwarded to
    the client's createPayment (and there is at least one) has amountMoney
    equal to the fixed {amount: "100", currency: "USD"} and has no amount
    member, whatever the payload's amount is or whether it has one. *)
Theorem C3_fixed_amount (env : Env) (payload : value) :
  Schema.validatePaymentPayload payload = true →
  let run := createPayment env (POST "/payment" payload) fresh in
  client_calls (snd run) ≠ [] ∧
  Forall (fun c => ∃ req, c = CreatePayment req ∧
                          prop req "amountMoney" = fixed_amountMoney ∧
                          prop req "amount" = VUndefined)
         (client_calls (snd run)).
Proof.
  intros Hvalid run. subst run. unfold POST.
  rewrite createPayment_unfold, Hvalid.
  apply compile_obj in Hvalid as [m ->].
  unfold retry, bind. cbn [new_promise logger.debug log snd].
  destruct (retry_from _ _ _ _) as [r w'] eqn:E. cbn [snd]. split.
  - apply retry_from_calls in E; [|apply createPayment_attempt_one_call].
    intros Hnil. rewrite Hnil in E. cbn in E. lia.
  - apply (retry_from_inv _ _ (createPayment_attempt_amount env m) _ _ _ _ _ E).
    constructor.
Qed.

(** C3 at a payload that asks for an amount of 5,000,000: it is valid, and
    the conclusion of C3 holds of its run. *)
Lemma C3_fixed_amount_witness :
  Schema.validatePaymentPayload payload_greedy = true ∧
  client_calls (snd (createPayment env_up (POST "/payment" payload_greedy) fresh)) ≠ [] ∧
  Forall (fun c => ∃ req, c = CreatePayment req ∧
                          prop req "amountMoney" = fixed_amountMoney ∧
                          prop req "amount" = VUndefined)
         (client_calls (snd (createPayment env_up (POST "/payment" payload_greedy) fresh))).
Proof.
  split; [vm_compute; reflexivity|].
  apply (C3_fixed_amount env_up payload_greedy). vm_compute. reflexivity.
Defined.

(** C4, at a failing input: the empty object lacks every required member
    and both validators reject it.  createPayment fails with the 400 and
    makes no call, as the claim says; createCard makes no call either but
    fails with a ReferenceError, not with the 400. *)
Theorem C4_rejected_card_payload_is_not_400 (env : Env) :
  Schema.validateCardPayload (VObj ∅) = false ∧
  fst (createCard env (POST "/cof" (VObj ∅)) fresh)
    = Throw (ReferenceError "validateCardPayload") ∧
  fst (createCard env (POST "/cof" (VObj ∅)) fresh)
    ≠ Throw (createError 400 "Bad Request") ∧
  client_calls (snd (createCard env (POST "/cof" (VObj ∅)) fresh)) = [] ∧
  Schema.validatePaymentPayload (VObj ∅) = false ∧
  fst (createPayment env (POST "/payment" (VObj ∅)) fresh)
    = Throw (createError 400 "Bad Request") ∧
  client_calls (snd (createPayment env (POST "/payment" (VObj ∅)) fresh)) = [].
Proof.
  assert (Hc : Schema.validateCardPayload (VObj ∅) = false) by (vm_compute; reflexivity).
  assert (Hp : Schema.validatePaymentPayload (VObj ∅) = false) by (vm_compute; reflexivity).
  unfold POST, createCard, json. cbn [body].
  rewrite ident_validateCardPayload, createPayment_unfold, Hp.
  cbv [bind ret throw logger.debug log]. cbn [fst snd client_calls fresh].
  split_and!; try reflexivity; try assumption.
  discriminate.
Qed.

(** C5: in listCards and searchCustomers the function handed to [retry]
    evaluates the identifier [client], which the module does not bind (the
    client is bound as [square]).  For every payload, attempt number and
    state the attempt throws a ReferenceError, which is not an ApiError: the
    catch block rethrows it for a retry and does not call bail; the client
    receives no call and no response is sent. *)
Theorem C5_unbound_client (env : Env) (payload : value) (attempt : nat)
    (w : World) :
  let run1 := listCards_attempt env payload bail attempt w in
  let run2 := searchCustomers_attempt env payload bail attempt w in
  module_scope !! "client" = None ∧
  module_scope !! "square" = Some BClient ∧
  instanceof_ApiError (ReferenceError "client") = false ∧
  (fst run1 = Throw (ReferenceError "client") ∧
   client_calls (snd run1) = client_calls w ∧
   responses (snd run1) = responses w ∧
   rejected (snd run1) = rejected w) ∧
  (fst run2 = Throw (ReferenceError "client") ∧
   client_calls (snd run2) = client_calls w ∧
   responses (snd run2) = responses w ∧
   rejected (snd run2) = rejected w).
Proof.
  intros run1 run2. subst run1 run2.
  unfold listCards_attempt, searchCustomers_attempt.
  rewrite ident_client. run_handler. cbn [fst snd]. fields.
  split_and!; reflexivity.
Qed.

(** C6: for every valid create-payment payload, if the client answers the
    first call with an ApiError, the handler bails: exactly one call is
    made, in attempt 1, nothing is sent, and the handler's result is that
    ApiError. *)
Theorem C6_api_error_not_retried (env : Env) (payload errors : value) :
  Schema.validatePaymentPayload payload = true →
  square_api env 0
    (CreatePayment (payment_request payload (next_key env payload fresh)))
    = ThrowsApiError errors →
  let run := createPayment env (POST "/payment" payload) fresh in
  fst run = Throw (ApiError errors) ∧
  length (client_calls (snd run)) = 1 ∧
  attempt_numbers "Creating payment" (snd run) = [1] ∧
  responses (snd run) = [].
Proof.
  intros Hvalid Hapi run. subst run. unfold POST.
  rewrite createPayment_unfold, Hvalid.
  apply compile_obj in Hvalid as [m ->].
  unfold retry, bind. cbn [new_promise logger.debug log snd].
  match goal with |- context [retry_from _ _ _ ?w] => set (w0 := w) end.
  destruct (createPayment_attempt env (VObj m) bail 1 w0) as [r1 w1] eqn:E.
  pose proof (createPayment_attempt_spec _ _ _ _ _ _ E) as (Hn & Hc & Ha & Ho).
  change (next_key env (VObj m) w0) with (next_key env (VObj m) fresh) in Ho.
  change (length (client_calls w0)) with 0 in Ho.
  rewrite Hapi in Ho. destruct Ho as (-> & Hr & Hj).
  destruct (retries env); cbn [retry_from]; rewrite E, Hj;
    cbn [default rejected w0 fst snd];
    (split_and!; [reflexivity | now rewrite Hc | exact Ha | exact Hr]).
Qed.

(** C6 at the spec's example payload, against a platform that rejects it. *)
Lemma C6_api_error_not_retried_witness :
  Schema.validatePaymentPayload payload_min = true ∧
  square_api env_rejecting 0
    (CreatePayment (payment_request payload_min (next_key env_rejecting payload_min fresh)))
    = ThrowsApiError (VArr [VStr "INVALID_CARD_DATA"]) ∧
  fst (createPayment env_rejecting (POST "/payment" payload_min) fresh)
    = Throw (ApiError (VArr [VStr "INVALID_CARD_DATA"])) ∧
  length (client_calls (snd (createPayment env_rejecting (POST "/payment" payload_min) fresh))) = 1 ∧
  attempt_numbers "Creating payment"
    (snd (createPayment env_rejecting (POST "/payment" payload_min) fresh)) = [1] ∧
  responses (snd (createPayment env_rejecting (POST "/payment" payload_min) fresh)) = [].
Proof.
  split; [vm_compute; reflexivity|]. split; [reflexivity|].
  apply (C6_api_error_not_retried env_rejecting payload_min (VArr [VStr "INVALID_CARD_DATA"])).
  - vm_compute. reflexivity.
  - reflexivity.
Defined.

(** C7: for every valid create-payment payload, if the client fails with
    something other than an ApiError on every call up to the maximum
    attempt count, exactly max-attempts calls are made, the attempts are
    numbered 1, 2, ..., max-attempts, nothing is sent, and the handler's
    result is the failure of the last call, which is not an ApiError.
    The loop is the executor of section 4.2. *)
Theorem C7_retries_exhausted (env : Env) (payload : value) :
  Schema.validatePaymentPayload payload = true →
  (∀ i c, i < max_attempts env → transient (square_api env i c) = true) →
  let run := createPayment env (POST "/payment" payload) fresh in
  length (client_calls (snd run)) = max_attempts env ∧
  attempt_numbers "Creating payment" (snd run) = seq 1 (max_attempts env) ∧
  responses (snd run) = [] ∧
  ∃ c ex, last (client_calls (snd run)) = Some c ∧
          thrown (square_api env (retries env) c) = Some ex ∧
          instanceof_ApiError ex = false ∧
          fst run = Throw ex.
Proof.
  intros Hvalid Hdown run. subst run. unfold POST.
  rewrite createPayment_unfold, Hvalid.
  apply compile_obj in Hvalid as [m ->].
  unfold retry, bind. cbn [new_promise logger.debug log snd].
  destruct (retry_from _ _ _ _) as [r w'] eqn:E.
  apply createPayment_retry_exhausted in E; [|reflexivity|exact Hdown].
  cbn [fst snd]. exact E.
Qed.

(** C7 at the spec's example payload, with every call lost and three
    attempts allowed. *)
Lemma C7_retries_exhausted_witness :
  Schema.validatePaymentPayload payload_min = true ∧
  (∀ i c, i < max_attempts env_down → transient (square_api env_down i c) = true) ∧
  length (client_calls (snd (createPayment env_down (POST "/payment" payload_min) fresh)))
    = max_attempts env_down ∧
  attempt_numbers "Creating payment"
    (snd (createPayment env_down (POST "/payment" payload_min) fresh))
    = seq 1 (max_attempts env_down) ∧
  responses (snd (createPayment env_down (POST "/payment" payload_min) fresh)) = [] ∧
  ∃ c ex,
    last (client_calls (snd (createPayment env_down (POST "/payment" payload_min) fresh)))
      = Some c ∧
    thrown (square_api env_down (retries env_down) c) = Some ex ∧
    instanceof_ApiError ex = false ∧
    fst (createPayment env_down (POST "/payment" payload_min) fresh) = Throw ex.
Proof.
  split; [vm_compute; reflexivity|]. split; [intros i c _; reflexivity|].
  apply (C7_retries_exhausted env_down payload_min).
  - vm_compute. reflexivity.
  - intros i c _. reflexivity.
Defined.

(** C8, at the failing input GET /cards: the route table lists [get '/*']
    before [get '/cards'] and the router takes the first route that
    answers, so the request is answered by serveStatic with the static
    server's response for the path; the list-cards handler is not run (it
    would have thrown).  The static route shadows the more specific one
    instead of being its fallback. *)
Theorem C8_get_cards_is_served_statically (env : Env) (b : option value) :
  microrouter.url_match "/*" "/cards" = true ∧
  module_exports env (GET "/cards" b) fresh
    = (Ok VUndefined, snd (serveStatic env (GET "/cards" b) fresh)) ∧
  responses (snd (module_exports env (GET "/cards" b) fresh))
    = [static_asset env "/cards"] ∧
  fst (listCards env (GET "/cards" b) fresh) ≠ Ok tt.
Proof.
  split; [vm_compute; reflexivity|].
  assert (H : module_exports env (GET "/cards" b) fresh
              = (Ok VUndefined, snd (serveStatic env (GET "/cards" b) fresh))).
  { unfold module_exports.
    rewrite router_skip;
      [|apply route_no_match; vm_compute; reflexivity|reflexivity].
    rewrite router_skip;
      [|apply route_no_match; vm_compute; reflexivity|reflexivity].
    apply router_stop.
    - unfold microrouter.get, microrouter.route, bind.
      replace (microrouter.url_match "/*"
                 (microrouter.pathname (path (GET "/cards" b)))
               && String.eqb (method (GET "/cards" b)) "GET") with true
        by (vm_compute; reflexivity).
      rewrite serveStatic_run. reflexivity.
    - rewrite serveStatic_run. cbn [snd responses fresh app]. discriminate. }
  rewrite H, serveStatic_run. cbn [snd responses fresh app path GET].
  split_and!; [reflexivity | reflexivity |].
  unfold listCards, json, GET. cbn [body]. destruct b as [payload|].
  - rewrite ident_validateListCardsPayload.
    cbv [bind ret throw logger.debug log]. cbn [fst]. discriminate.
  - cbv [bind throw]. cbn [fst]. discriminate.
Qed.

(** C9: for every valid create-payment payload, if the client answers the
    first call with {result, statusCode}, where result.payment can be read
    from, exactly one call is made and the handler sends status statusCode
    with the body {success: true, payment: {id, status, receiptUrl,
    orderId}} whose four members are those of result.payment. *)
Theorem C9_first_attempt_succeeds (env : Env) (payload result : value)
    (statusCode : Z) :
  Schema.validatePaymentPayload payload = true →
  square_api env 0
    (CreatePayment (payment_request payload (next_key env payload fresh)))
    = Returns result statusCode →
  nullish result = false →
  nullish (prop result "payment") = false →
  let run := createPayment env (POST "/payment" payload) fresh in
  fst run = Ok tt ∧
  length (client_calls (snd run)) = 1 ∧
  responses (snd run)
    = [(statusCode,
        VObj {[ "success" := VBool true;
                "payment" :=
                  VObj {[ "id" := prop (prop result "payment") "id";
                          "status" := prop (prop result "payment") "status";
                          "receiptUrl" := prop (prop result "payment") "receiptUrl";
                          "orderId" := prop (prop result "payment") "orderId" ]} ]})].
Proof.
  intros Hvalid Hapi Hres Hpay run. subst run. unfold POST.
  rewrite createPayment_unfold, Hvalid.
  apply compile_obj in Hvalid as [m ->].
  unfold retry, bind. cbn [new_promise logger.debug log snd].
  match goal with |- context [retry_from _ _ _ ?w] => set (w0 := w) end.
  destruct (createPayment_attempt env (VObj m) bail 1 w0) as [r1 w1] eqn:E.
  pose proof (createPayment_attempt_spec _ _ _ _ _ _ E) as (Hn & Hc & Ha & Ho).
  change (next_key env (VObj m) w0) with (next_key env (VObj m) fresh) in Ho.
  change (length (client_calls w0)) with 0 in Ho.
  rewrite Hapi, Hres, Hpay in Ho. cbn [orb] in Ho. destruct Ho as (-> & Hr & Hj).
  destruct (retries env); cbn [retry_from]; rewrite E, Hj; cbn [rejected w0 fst snd];
    (split_and!; [reflexivity | now rewrite Hc | exact Hr]).
Qed.

(** C9 at the spec's example payload, answered 200 at the first call. *)
Lemma C9_first_attempt_succeeds_witness :
  Schema.validatePaymentPayload payload_min = true ∧
  square_api env_up 0
    (CreatePayment (payment_request payload_min (next_key env_up payload_min fresh)))
    = Returns sample_result 200 ∧
  nullish sample_result = false ∧
  nullish (prop sample_result "payment") = false ∧
  fst (createPayment env_up (POST "/payment" payload_min) fresh) = Ok tt ∧
  length (client_calls (snd (createPayment env_up (POST "/payment" payload_min) fresh))) = 1 ∧
  responses (snd (createPayment env_up (POST "/payment" payload_min) fresh))
    = [(200%Z,
        VObj {[ "success" := VBool true;
                "payment" :=
                  VObj {[ "id" := prop (prop sample_result "payment") "id";
                          "status" := prop (prop sample_result "payment") "status";
                          "receiptUrl" := prop (prop sample_result "payment") "receiptUrl";
                          "orderId" := prop (prop sample_result "payment") "orderId" ]} ]})].
Proof.
  split; [vm_compute; reflexivity|]. split; [reflexivity|].
  split; [reflexivity|]. split; [vm_compute; reflexivity|].
  apply (C9_first_attempt_succeeds env_up payload_min sample_result 200).
  - vm_compute. reflexivity.
  - reflexivity.
  - reflexivity.
  - vm_compute. reflexivity.
Defined.

(** C10, as stated, fails: [cardSchema] lists idempotencyKey and
    verificationToken under [properties], not [optionalProperties].  A
    payload with the five other members, correctly typed, and without these
    two is rejected.  With the two it is accepted, and rejected again once
    a member outside the schema is added, although no member is missing or
    wrong-typed. *)
Lemma C10_five_members_rejected :
  is_uint32 (prop (VObj card_five) "expMonth") ∧
  is_uint32 (prop (VObj card_five) "expYear") ∧
  is_string (prop (VObj card_five) "cardHolderName") ∧
  is_string (prop (VObj card_five) "customerId") ∧
  is_string (prop (VObj card_five) "sourceId") ∧
  prop (VObj card_five) "idempotencyKey" = VUndefined ∧
  prop (VObj card_five) "verificationToken" = VUndefined ∧
  Schema.validateCardPayload (VObj card_five) = false ∧
  Schema.validateCardPayload (VObj card_seven) = true ∧
  Schema.validateCardPayload (VObj (<["nickname" := VStr "work"]> card_seven))
    = false.
Proof.
  split_and!.
  - exists 12%Z. split; [vm_compute; reflexivity | lia].
  - exists 2030%Z. split; [vm_compute; reflexivity | lia].
  - eexists; vm_compute; reflexivity.
  - eexists; vm_compute; reflexivity.
  - eexists; vm_compute; reflexivity.
  - vm_compute; reflexivity.
  - vm_compute; reflexivity.
  - vm_compute; reflexivity.
  - vm_compute; reflexivity.
  - vm_compute; reflexivity.
Qed.

(** C10, amended: the card validator requires all seven members.  It
    accepts a payload exactly when the payload is an object whose expMonth
    and expYear are integers in 0..4294967295, whose cardHolderName,
    customerId, idempotencyKey, sourceId and verificationToken are strings,
    and which has no other member. *)
Theorem C10_card_validator (p : value) :
  Schema.validateCardPayload p = true ↔
  ∃ m, p = VObj m ∧
       is_uint32 (prop p "expMonth") ∧ is_uint32 (prop p "expYear") ∧
       is_string (prop p "cardHolderName") ∧ is_string (prop p "customerId") ∧
       is_string (prop p "idempotencyKey") ∧ is_string (prop p "sourceId") ∧
       is_string (prop p "verificationToken") ∧
       ∀ k, is_Some (m !! k) → k ∈ card_members.
Proof.
  unfold Schema.validateCardPayload, Schema.compile.
  destruct p as [| | | | | |m]; try (split; [discriminate | intros (? & [=] & _)]).
  cbn [Schema.properties Schema.optionalProperties Schema.cardSchema forallb].
  rewrite !andb_true_r, !andb_true_iff, !validate_string, !validate_uint32, bool_decide_eq_true.
  assert (Hdom : dom m ⊆ Schema.schema_keys Schema.cardSchema ↔ ∀ k, is_Some (m !! k) → k ∈ card_members).
  { unfold Schema.schema_keys. cbn [Schema.properties Schema.optionalProperties Schema.cardSchema fmap list_fmap fst app].
    split.
    - intros H k Hk. apply elem_of_dom in Hk. apply H in Hk. now apply elem_of_list_to_set in Hk.
    - intros H k Hk. apply elem_of_dom in Hk. apply elem_of_list_to_set. now apply H. }
  rewrite Hdom. split.
  - intros [(?&?&?&?&?&?&?) ?]. exists m. tauto.
  - intros (m' & [= <-] & ?). tauto.
Qed.

(** ** Further properties: the validators *)

Lemma optional_member t v :
  match v with
  | VUndefined => true
  | VNull => Schema.validate_type t VNull
  | VBool b => Schema.validate_type t (VBool b)
  | VNum n => Schema.validate_type t (VNum n)
  | VStr s => Schema.validate_type t (VStr s)
  | VArr l => Schema.validate_type t (VArr l)
  | VObj m => Schema.validate_type t (VObj m)
  end = true ↔ absent_or (fun v => Schema.validate_type t v = true) v.
Proof.
  unfold absent_or. destruct v; split; auto; intros [H|H]; auto; discriminate.
Qed.

Lemma dom_members (m : gmap string value) (l : list string) :
  dom m ⊆ list_to_set l ↔ ∀ k, is_Some (m !! k) → k ∈ l.
Proof.
  split.
  - intros H k Hk. apply elem_of_dom in Hk. apply H in Hk.
    now apply elem_of_list_to_set in Hk.
  - intros H k Hk. apply elem_of_dom in Hk. apply elem_of_list_to_set. now apply H.
Qed.

(** A member outside the list is absent from an object all of whose members
    are in the list. *)
Lemma outside_member (m : gmap string value) (l : list string) k :
  (∀ k, is_Some (m !! k) → k ∈ l) → k ∉ l → prop (VObj m) k = VUndefined.
Proof.
  intros H Hk. cbn [prop]. destruct (m !! k) eqn:E; [|reflexivity].
  exfalso. apply Hk, H. eauto.
Qed.

(** X1: the payment validator accepts a payload exactly when it is an
    object whose sourceId and locationId are strings, whose amount, when
    present, is an integer in 0..4294967295, whose idempotencyKey and
    verificationToken, when present, are strings, and which has no other
    member. *)
Theorem paymentSchema_accepts_iff (p : value) :
  Schema.validatePaymentPayload p = true ↔
  ∃ m, p = VObj m ∧
       is_string (prop p "sourceId") ∧ is_string (prop p "locationId") ∧
       absent_or is_uint32 (prop p "amount") ∧
       absent_or is_string (prop p "idempotencyKey") ∧
       absent_or is_string (prop p "verificationToken") ∧
       ∀ k, is_Some (m !! k) → k ∈ payment_members.
Proof.
  unfold Schema.validatePaymentPayload, Schema.compile.
  destruct p as [| | | | | |m]; try (split; [discriminate | intros (? & [=] & _)]).
  cbn [Schema.properties Schema.optionalProperties Schema.paymentSchema forallb].
  rewrite !andb_true_r, !andb_true_iff. rewrite !optional_member, !validate_string,
    bool_decide_eq_true.
  unfold Schema.schema_keys.
  cbn [Schema.properties Schema.optionalProperties Schema.paymentSchema
       fmap list_fmap fst app].
  rewrite dom_members. unfold absent_or.
  setoid_rewrite validate_string. setoid_rewrite validate_uint32.
  split.
  - intros [[[? ?] (? & ? & ?)] ?]. exists m. tauto.
  - intros (m' & [= <-] & ?). tauto.
Qed.

Lemma single_member_object (m : gmap string value) k v :
  m !! k = Some v → (∀ k', is_Some (m !! k') → k' ∈ [k]) → m = {[ k := v ]}.
Proof.
  intros Hk Hdom. apply map_eq. intros k'.
  destruct (decide (k' = k)) as [->|Hne].
  - now rewrite lookup_singleton_eq.
  - rewrite lookup_singleton_ne by congruence.
    destruct (m !! k') eqn:E; [|reflexivity].
    exfalso. apply Hne. specialize (Hdom k' ltac:(eauto)).
    now apply list_elem_of_singleton in Hdom.
Qed.

(** X2: the list-cards validator accepts exactly the objects
    {customerId: <string>}, the search-customer validator exactly the
    objects {emailAddress: <string>}: one member, nothing else. *)
Theorem single_member_schemas_accept_iff (p : value) :
  (Schema.validateListCardsPayload p = true
   ↔ ∃ s, p = VObj {[ "customerId" := VStr s ]}) ∧
  (Schema.validateSearchCustomerPayload p = true
   ↔ ∃ s, p = VObj {[ "emailAddress" := VStr s ]}).
Proof.
  unfold Schema.validateListCardsPayload, Schema.validateSearchCustomerPayload,
    Schema.compile.
  destruct p as [| | | | | |m];
    try (split; (split; [discriminate | intros (? & [=])])).
  cbn [Schema.properties Schema.optionalProperties Schema.listCardsSchema
       Schema.searchCustomerSchema forallb].
  rewrite !andb_true_r, !andb_true_iff, !validate_string, !bool_decide_eq_true.
  unfold Schema.schema_keys.
  cbn [Schema.properties Schema.optionalProperties Schema.listCardsSchema
       Schema.searchCustomerSchema fmap list_fmap fst app].
  rewrite !dom_members. cbn [prop].
  split; (split;
    [intros [[s Hs] Hdom]; exists s; f_equal;
     match type of Hs with default _ (_ !! ?k) = _ =>
       destruct (m !! k) as [v|] eqn:E; [cbn in Hs; subst v|discriminate]
     end;
     now apply single_member_object
    |intros [s [= ->]]; split;
     [exists s; now rewrite lookup_singleton_eq
     |intros k [v Hv]; apply lookup_singleton_Some in Hv as [<- _];
      apply list_elem_of_singleton; reflexivity]]).
Qed.

(** X3: whatever the schema, a compiled validator rejects every object
    that has a member the schema does not list: no schema of the file sets
    additionalProperties. *)
Theorem compile_rejects_unknown_member (s : Schema.jtd_schema)
    (m : gmap string value) (k : string) (v : value) :
  k ∉ ((Schema.properties s).*1 ++ (Schema.optionalProperties s).*1) →
  Schema.compile s (VObj (<[k := v]> m)) = false.
Proof.
  intros Hk. unfold Schema.compile.
  rewrite (bool_decide_eq_false_2 (dom (<[k := v]> m) ⊆ Schema.schema_keys s)).
  - apply andb_false_r.
  - intros Hsub. apply Hk. unfold Schema.schema_keys in Hsub.
    apply (elem_of_list_to_set (C := gset string)), Hsub, elem_of_dom.
    rewrite lookup_insert_eq. eauto.
Qed.

(** X3 at a payment payload that brings its own amountMoney. *)
Lemma compile_rejects_unknown_member_witness :
  ("amountMoney" ∉ ((Schema.properties Schema.paymentSchema).*1
                     ++ (Schema.optionalProperties Schema.paymentSchema).*1)) ∧
  Schema.compile Schema.paymentSchema
    (VObj (<["amountMoney" := fixed_amountMoney]>
             {[ "sourceId" := VStr "src1"; "locationId" := VStr "loc1" ]}))
    = false.
Proof.
  assert (H : "amountMoney" ∉ ((Schema.properties Schema.paymentSchema).*1
                   ++ (Schema.optionalProperties Schema.paymentSchema).*1)).
  { cbn. rewrite !not_elem_of_cons. split_and!; try discriminate. apply not_elem_of_nil. }
  split; [exact H|].
  apply (compile_rejects_unknown_member Schema.paymentSchema _ "amountMoney" _ H).
Defined.

(** ** The retry loop around an attempt that makes one call *)

Section Loop.

Context (env : Env).
Variable fn : (exn → M unit) → nat → M unit.
Variables text part : string.
Variable call : World → ClientCall.
Variable body : value → value.

Hypothesis fn_spec : ∀ num w r w',
  fn bail num w = (r, w') →
  client_calls w' = client_calls w ++ [call w] ∧
  attempt_numbers text w' = attempt_numbers text w ++ [num] ∧
  match square_api env (length (client_calls w)) (call w) with
  | ThrowsOther message =>
      r = Throw (OtherError message) ∧ responses w' = responses w ∧
      rejected w' = rejected w
  | ThrowsApiError errors =>
      r = Ok tt ∧ responses w' = responses w ∧
      rejected w' = Some (default (ApiError errors) (rejected w))
  | Returns result statusCode =>
      if nullish result || nullish (prop result part)
      then (∃ message, r = Throw (TypeError message)) ∧
           responses w' = responses w ∧ rejected w' = rejected w
      else r = Ok tt ∧
           responses w' = responses w ++ [(statusCode, body result)] ∧
           rejected w' = rejected w
  end.

(** The first answer that does not make the attempt fail decides the run. *)
Lemma loop_decided k :
  ∀ n num w r w',
    rejected w = None → (k ≤ n)%nat →
    (∀ i c, i < k →
       attempt_fails part (square_api env (length (client_calls w) + i) c) = true) →
    (∀ c, attempt_fails part (square_api env (length (client_calls w) + k) c) = false) →
    retry_from fn n num w = (r, w') →
    length (client_calls w') = length (client_calls w) + S k ∧
    attempt_numbers text w' = attempt_numbers text w ++ seq num (S k) ∧
    ∃ c, last (client_calls w') = Some c ∧
         match square_api env (length (client_calls w) + k) c with
         | Returns result statusCode =>
             r = Ok tt ∧
             responses w' = responses w ++ [(statusCode, body result)]
         | ThrowsApiError errors =>
             r = Throw (ApiError errors) ∧ responses w' = responses w
         | ThrowsOther _ => False
         end.
Proof.
  induction k as [|k IH]; intros n num w r w' Hrej Hk Hfail Hstop.
  - assert (Hone : ∀ r1 w1, fn bail num w = (r1, w1) →
              retry_from fn n num w = (r, w') →
              length (client_calls w') = length (client_calls w) + 1 ∧
              attempt_numbers text w' = attempt_numbers text w ++ seq num 1 ∧
              ∃ c, last (client_calls w') = Some c ∧
                   match square_api env (length (client_calls w) + 0) c with
                   | Returns result statusCode =>
                       r = Ok tt ∧
                       responses w' = responses w ++ [(statusCode, body result)]
                   | ThrowsApiError errors =>
                       r = Throw (ApiError errors) ∧ responses w' = responses w
                   | ThrowsOther _ => False
                   end).
    { intros r1 w1 E. pose proof (fn_spec _ _ _ _ E) as (Hc & Ha & Ho).
      specialize (Hstop (call w)). rewrite Nat.add_0_r in Hstop |- *.
      destruct (square_api env (length (client_calls w)) (call w))
        as [result statusCode|errors|message] eqn:Hs; cbn [attempt_fails] in Hstop;
        try discriminate.
      - rewrite Hstop in Ho. destruct Ho as (-> & Hr & Hj).
        destruct n; cbn [retry_from]; rewrite E, Hj, Hrej; intros [= <- <-];
          (split_and!; [now rewrite Hc, length_app | exact Ha |];
           exists (call w); rewrite Hc, last_snoc, Hs; auto).
      - destruct Ho as (-> & Hr & Hj).
        destruct n; cbn [retry_from]; rewrite E, Hj, Hrej; cbn [default];
          intros [= <- <-];
          (split_and!; [now rewrite Hc, length_app | exact Ha |];
           exists (call w); rewrite Hc, last_snoc, Hs; auto). }
    destruct (fn bail num w) as [r1 w1] eqn:E. intros H.
    apply (Hone _ _ eq_refl H).
  - destruct n as [|n]; [lia|]. cbn [retry_from].
    destruct (fn bail num w) as [r1 w1] eqn:E.
    pose proof (fn_spec _ _ _ _ E) as (Hc & Ha & Ho).
    pose proof (Hfail 0 (call w) ltac:(lia)) as Hf. rewrite Nat.add_0_r in Hf.
    assert (Hthrow : (∃ ex, r1 = Throw ex) ∧ responses w1 = responses w ∧
                     rejected w1 = None).
    { destruct (square_api env (length (client_calls w)) (call w));
        cbn [attempt_fails] in Hf; try discriminate.
      - rewrite Hf in Ho. destruct Ho as ([msg ->] & ? & ?).
        split_and!; eauto; congruence.
      - destruct Ho as (-> & ? & ?). split_and!; eauto; congruence. }
    destruct Hthrow as ([ex ->] & Hr & Hj). rewrite Hj. intros H.
    apply IH in H as (Hl & Hn & c & Hlast & Hout).
    + rewrite Hc, length_app in Hl, Hout. cbn [length] in Hl, Hout.
      replace (length (client_calls w) + 1 + k)
        with (length (client_calls w) + S k) in Hout by lia.
      split_and!.
      * lia.
      * rewrite Hn, Ha, <- app_assoc. reflexivity.
      * exists c. split; [exact Hlast|]. rewrite Hr in Hout. exact Hout.
    + exact Hj.
    + lia.
    + intros i c Hi. rewrite Hc, length_app. cbn [length].
      replace (length (client_calls w) + 1 + i)
        with (length (client_calls w) + S i) by lia.
      apply Hfail. lia.
    + intros c. rewrite Hc, length_app. cbn [length].
      replace (length (client_calls w) + 1 + k)
        with (length (client_calls w) + S k) by lia.
      apply Hstop.
Qed.

(** When every answer makes the attempt fail, every attempt is used, and the
    run ends with the exception of the last attempt. *)
Lemma loop_exhausted :
  ∀ n num w r w',
    rejected w = None →
    (∀ i c, i < S n →
       attempt_fails part (square_api env (length (client_calls w) + i) c) = true) →
    retry_from fn n num w = (r, w') →
    length (client_calls w') = length (client_calls w) + S n ∧
    attempt_numbers text w' = attempt_numbers text w ++ seq num (S n) ∧
    responses w' = responses w ∧
    ∃ c ex, last (client_calls w') = Some c ∧ r = Throw ex ∧
            match square_api env (length (client_calls w) + n) c with
            | ThrowsOther message => ex = OtherError message
            | Returns _ _ => ∃ message, ex = TypeError message
            | ThrowsApiError _ => False
            end.
Proof.
  induction n as [|n IH]; intros num w r w' Hrej Hfail; cbn [retry_from];
    destruct (fn bail num w) as [r1 w1] eqn:E;
    pose proof (fn_spec _ _ _ _ E) as (Hc & Ha & Ho);
    pose proof (Hfail 0 (call w) ltac:(lia)) as Hf; rewrite Nat.add_0_r in Hf;
    assert (Hthrow : ∃ ex, r1 = Throw ex ∧
                       match square_api env (length (client_calls w)) (call w) with
                       | ThrowsOther message => ex = OtherError message
                       | Returns _ _ => ∃ message, ex = TypeError message
                       | ThrowsApiError _ => False
                       end ∧
                       responses w1 = responses w ∧ rejected w1 = None)
      by (destruct (square_api env (length (client_calls w)) (call w));
          cbn [attempt_fails] in Hf; try discriminate;
          [rewrite Hf in Ho; destruct Ho as ([msg ->] & ? & ?)
          |destruct Ho as (-> & ? & ?)];
          eexists; split_and!; eauto; congruence);
    destruct Hthrow as (ex & -> & Hex & Hr & Hj); rewrite Hj.
  - intros [= <- <-]. rewrite Hc, length_app, last_snoc, Nat.add_0_r.
    cbn [length seq]. split_and!; eauto.
  - intros H. apply IH in H as (Hl & Hn & Hresp & c & ex' & Hlast & -> & Hout).
    + rewrite Hc, length_app in Hl, Hout. cbn [length] in Hl, Hout.
      replace (length (client_calls w) + 1 + n)
        with (length (client_calls w) + S n) in Hout by lia.
      split_and!; [lia | | congruence | eauto].
      rewrite Hn, Ha, <- app_assoc. reflexivity.
    + exact Hj.
    + intros i c Hi. rewrite Hc, length_app. cbn [length].
      replace (length (client_calls w) + 1 + i)
        with (length (client_calls w) + S i) by lia.
      apply Hfail. lia.
Qed.

(** Whatever the client answers: the attempts are numbered consecutively,
    one per call, and a response is sent exactly when the run succeeds, and
    then once. *)
Lemma loop_responds_once :
  ∀ n num w r w',
    rejected w = None →
    retry_from fn n num w = (r, w') →
    (length (client_calls w) < length (client_calls w')
       ≤ length (client_calls w) + S n)%nat ∧
    attempt_numbers text w'
      = attempt_numbers text w
        ++ seq num (length (client_calls w') - length (client_calls w)) ∧
    ((r = Ok tt ∧ ∃ x, responses w' = responses w ++ [x]) ∨
     (∃ ex, r = Throw ex ∧ responses w' = responses w)).
Proof.
  induction n as [|n IH]; intros num w r w' Hrej; cbn [retry_from];
    destruct (fn bail num w) as [r1 w1] eqn:E;
    pose proof (fn_spec _ _ _ _ E) as (Hc & Ha & Ho);
    assert (Hlen : length (client_calls w1) = S (length (client_calls w)))
      by (rewrite Hc, length_app; cbn [length]; lia);
    assert (Hcases :
      (rejected w1 = None ∧ r1 = Ok tt ∧ ∃ x, responses w1 = responses w ++ [x]) ∨
      (∃ cause, rejected w1 = Some cause ∧ responses w1 = responses w) ∨
      (rejected w1 = None ∧ (∃ ex, r1 = Throw ex) ∧ responses w1 = responses w))
      by (destruct (square_api env (length (client_calls w)) (call w));
          [destruct (nullish _ || nullish _);
             [destruct Ho as ([msg ->] & ? & ?); right; right
             |destruct Ho as (-> & ? & ?); left]
          |destruct Ho as (-> & ? & ?); right; left; rewrite Hrej in *
          |destruct Ho as (-> & ? & ?); right; right];
          split_and?; eauto; congruence);
    destruct Hcases as [(Hj & -> & x & Hx) | [(cause & Hj & Hx) | (Hj & [ex ->] & Hx)]];
    rewrite Hj.
  1-3: intros [= <- <-]; rewrite Hlen;
       replace (S (length (client_calls w)) - length (client_calls w)) with 1 by lia;
       (split_and!; [lia | lia | exact Ha | eauto]).
  1-2: intros [= <- <-]; rewrite Hlen;
       replace (S (length (client_calls w)) - length (client_calls w)) with 1 by lia;
       (split_and!; [lia | lia | exact Ha | eauto]).
  intros H. apply IH in H as (Hl & Hn & Hres); [|exact Hj].
  rewrite Hlen in Hl, Hn. split_and!; [lia | lia | |].
  - rewrite Hn, Ha, <- app_assoc. f_equal.
    replace (length (client_calls w') - length (client_calls w))
      with (S (length (client_calls w') - S (length (client_calls w)))) by lia.
    reflexivity.
  - rewrite Hx in Hres. exact Hres.
Qed.

End Loop.

(** ** Further properties: the handlers *)

(** One attempt of createCard on a payload that has members: the call it
    makes and what it leaves, by the client's answer. *)
Lemma createCard_attempt_spec (env : Env) payload num w r w' :
  nullish payload = false →
  let req := card_request payload (next_key env payload w) in
  createCard_attempt env payload bail num w = (r, w') →
  client_calls w' = client_calls w ++ [CreateCard req] ∧
  attempt_numbers "Creating card on file" w'
    = attempt_numbers "Creating card on file" w ++ [num] ∧
  match square_api env (length (client_calls w)) (CreateCard req) with
  | ThrowsOther message =>
      r = Throw (OtherError message) ∧ responses w' = responses w ∧
      rejected w' = rejected w
  | ThrowsApiError errors =>
      r = Ok tt ∧ responses w' = responses w ∧
      rejected w' = Some (default (ApiError errors) (rejected w))
  | Returns result statusCode =>
      if nullish result || nullish (prop result "card")
      then (∃ message, r = Throw (TypeError message)) ∧
           responses w' = responses w ∧ rejected w' = rejected w
      else r = Ok tt ∧
           responses w' = responses w ++ [(statusCode, card_body result)] ∧
           rejected w' = rejected w
  end.
Proof.
  intros Hp req. subst req.
  unfold createCard_attempt, card_request, next_key, card_body, attempt_numbers.
  rewrite ident_square. run_handler. rewrite Hp.
  destruct (truthy (prop payload "idempotencyKey")); fields.
  all: match goal with |- context [square_api ?e ?n ?c] =>
         destruct (square_api e n c) as [result statusCode| |] end; fields.
  all: try (case_nullish result; [|case_nullish (prop result "card")]).
  all: intros [= <- <-]; fields; cbn [orb].
  all: rewrite ?omap_app; cbn [omap lvl msg at_attempt String.eqb Ascii.eqb Bool.eqb];
       rewrite ?app_nil_r.
  all: split_and!; eauto.
  all: destruct (rejected w); reflexivity.
Qed.

(** The attempts of createPayment and of createCard fit the loop lemmas. *)
Lemma payment_loop_spec (env : Env) (m : gmap string value) num w r w' :
  createPayment_attempt env (VObj m) bail num w = (r, w') →
  client_calls w'
    = client_calls w
      ++ [CreatePayment (payment_request (VObj m) (next_key env (VObj m) w))] ∧
  attempt_numbers "Creating payment" w'
    = attempt_numbers "Creating payment" w ++ [num] ∧
  match square_api env (length (client_calls w))
          (CreatePayment (payment_request (VObj m) (next_key env (VObj m) w))) with
  | ThrowsOther message =>
      r = Throw (OtherError message) ∧ responses w' = responses w ∧
      rejected w' = rejected w
  | ThrowsApiError errors =>
      r = Ok tt ∧ responses w' = responses w ∧
      rejected w' = Some (default (ApiError errors) (rejected w))
  | Returns result statusCode =>
      if nullish result || nullish (prop result "payment")
      then (∃ message, r = Throw (TypeError message)) ∧
           responses w' = responses w ∧ rejected w' = rejected w
      else r = Ok tt ∧
           responses w' = responses w ++ [(statusCode, payment_body result)] ∧
           rejected w' = rejected w
  end.
Proof. intros (_ & H)%createPayment_attempt_spec. exact H. Qed.

Lemma card_loop_spec (env : Env) (m : gmap string value) num w r w' :
  createCard_attempt env (VObj m) bail num w = (r, w') →
  client_calls w'
    = client_calls w
      ++ [CreateCard (card_request (VObj m) (next_key env (VObj m) w))] ∧
  attempt_numbers "Creating card on file" w'
    = attempt_numbers "Creating card on file" w ++ [num] ∧
  match square_api env (length (client_calls w))
          (CreateCard (card_request (VObj m) (next_key env (VObj m) w))) with
  | ThrowsOther message =>
      r = Throw (OtherError message) ∧ responses w' = responses w ∧
      rejected w' = rejected w
  | ThrowsApiError errors =>
      r = Ok tt ∧ responses w' = responses w ∧
      rejected w' = Some (default (ApiError errors) (rejected w))
  | Returns result statusCode =>
      if nullish result || nullish (prop result "card")
      then (∃ message, r = Throw (TypeError message)) ∧
           responses w' = responses w ∧ rejected w' = rejected w
      else r = Ok tt ∧
           responses w' = responses w ++ [(statusCode, card_body result)] ∧
           rejected w' = rejected w
  end.
Proof. apply createCard_attempt_spec. reflexivity. Qed.

(** createPayment on a valid payload is the retry loop, entered with
    nothing but the payload logged. *)
Lemma createPayment_enters_loop (env : Env) (payload : value) :
  Schema.validatePaymentPayload payload = true →
  ∃ m, payload = VObj m ∧
       createPayment env (POST "/payment" payload) fresh
       = retry_from (createPayment_attempt env (VObj m)) (retries env) 1
           {| nanoid_calls := 0; client_calls := []; responses := [];
              logs := [{| lvl := Debug; msg := "payload"; at_attempt := None |}];
              rejected := None |}.
Proof.
  intros Hvalid. unfold POST. rewrite createPayment_unfold, Hvalid.
  apply compile_obj in Hvalid as [m ->]. exists m. split; reflexivity.
Qed.

(** X4: createPayment fails fast.  On every payload its validator rejects,
    the handler throws the 400 before the retry loop: no attempt is made,
    no id is drawn, the client receives no call and nothing is sent. *)
Theorem createPayment_bad_request (env : Env) (payload : value) :
  Schema.validatePaymentPayload payload = false →
  let run := createPayment env (POST "/payment" payload) fresh in
  fst run = Throw (createError 400 "Bad Request") ∧
  client_calls (snd run) = [] ∧
  nanoid_calls (snd run) = 0 ∧
  responses (snd run) = [] ∧
  attempt_numbers "Creating payment" (snd run) = [].
Proof.
  intros Hvalid run. subst run. unfold POST.
  rewrite createPayment_unfold, Hvalid. split_and!; reflexivity.
Qed.

(** X4 at a payload without locationId. *)
Lemma createPayment_bad_request_witness :
  Schema.validatePaymentPayload (VObj {[ "sourceId" := VStr "src1" ]}) = false ∧
  fst (createPayment env_up (POST "/payment" (VObj {[ "sourceId" := VStr "src1" ]})) fresh)
    = Throw (createError 400 "Bad Request") ∧
  client_calls (snd (createPayment env_up (POST "/payment" (VObj {[ "sourceId" := VStr "src1" ]})) fresh)) = [] ∧
  nanoid_calls (snd (createPayment env_up (POST "/payment" (VObj {[ "sourceId" := VStr "src1" ]})) fresh)) = 0 ∧
  responses (snd (createPayment env_up (POST "/payment" (VObj {[ "sourceId" := VStr "src1" ]})) fresh)) = [] ∧
  attempt_numbers "Creating payment"
    (snd (createPayment env_up (POST "/payment" (VObj {[ "sourceId" := VStr "src1" ]})) fresh)) = [].
Proof.
  split; [vm_compute; reflexivity|].
  apply (createPayment_bad_request env_up (VObj {[ "sourceId" := VStr "src1" ]})).
  vm_compute. reflexivity.
Defined.

(** X5: a body that is not JSON ends each of the four handlers at its
    first line, with the 400 of [json]; the state is untouched, so nothing
    is logged, validated or called.  For createCard, listCards and
    searchCustomers this is the one input on which they do fail with a
    400. *)
Theorem body_not_json_is_400 (env : Env) (meth pth : string) (w : World) :
  let req := {| method := meth; path := pth; body := None |} in
  createPayment env req w = (Throw (createError 400 "Invalid JSON"), w) ∧
  createCard env req w = (Throw (createError 400 "Invalid JSON"), w) ∧
  listCards env req w = (Throw (createError 400 "Invalid JSON"), w) ∧
  searchCustomers env req w = (Throw (createError 400 "Invalid JSON"), w).
Proof. intros req. split_and!; reflexivity. Qed.

(** X6: for a valid create-payment payload, if the attempts before the
    (k+1)-th fail with something that is not an ApiError and the (k+1)-th
    call is answered with a result whose payment can be read, with k below
    the maximum attempt count, then exactly k+1 calls are made, in attempts
    1..k+1, the handler succeeds and the one response sent maps that
    result. *)
Theorem createPayment_succeeds_at_attempt (env : Env) (payload result : value)
    (statusCode : Z) (k : nat) :
  Schema.validatePaymentPayload payload = true →
  (k < max_attempts env)%nat →
  (∀ i c, (i < k)%nat → attempt_fails "payment" (square_api env i c) = true) →
  (∀ c, square_api env k c = Returns result statusCode) →
  nullish result = false →
  nullish (prop result "payment") = false →
  let run := createPayment env (POST "/payment" payload) fresh in
  fst run = Ok tt ∧
  length (client_calls (snd run)) = S k ∧
  attempt_numbers "Creating payment" (snd run) = seq 1 (S k) ∧
  responses (snd run) = [(statusCode, payment_body result)].
Proof.
  intros Hvalid Hk Hfail Hok Hres Hpay run. subst run.
  destruct (createPayment_enters_loop env payload Hvalid) as (m & -> & ->).
  destruct (retry_from _ _ _ _) as [r w'] eqn:E. cbn [fst snd].
  apply (loop_decided env _ _ _ _ _ (payment_loop_spec env m) k) in E
    as (Hl & Hn & c & Hlast & Hout).
  - cbn [client_calls length Nat.add] in Hout. rewrite Hok in Hout.
    destruct Hout as [-> Hr]. cbn in Hl, Hn, Hr. split_and!; solve [reflexivity | assumption].
  - reflexivity.
  - unfold max_attempts in Hk. lia.
  - intros i c Hi. apply Hfail, Hi.
  - intros c. cbn [client_calls length Nat.add]. rewrite Hok. cbn [attempt_fails].
    now rewrite Hres, Hpay.
Qed.

(** X6 at the spec's example payload, first call lost, second answered. *)
Lemma createPayment_succeeds_at_attempt_witness :
  Schema.validatePaymentPayload payload_min = true ∧
  (1 < max_attempts env_flaky)%nat ∧
  (∀ i c, (i < 1)%nat → attempt_fails "payment" (square_api env_flaky i c) = true) ∧
  (∀ c, square_api env_flaky 1 c = Returns sample_result 200) ∧
  nullish sample_result = false ∧
  nullish (prop sample_result "payment") = false ∧
  fst (createPayment env_flaky (POST "/payment" payload_min) fresh) = Ok tt ∧
  length (client_calls (snd (createPayment env_flaky (POST "/payment" payload_min) fresh))) = 2 ∧
  attempt_numbers "Creating payment"
    (snd (createPayment env_flaky (POST "/payment" payload_min) fresh)) = seq 1 2 ∧
  responses (snd (createPayment env_flaky (POST "/payment" payload_min) fresh))
    = [(200%Z, payment_body sample_result)].
Proof.
  assert (H1 : Schema.validatePaymentPayload payload_min = true)
    by (vm_compute; reflexivity).
  assert (H2 : (1 < max_attempts env_flaky)%nat) by (unfold max_attempts; cbn; lia).
  assert (H3 : ∀ i c, (i < 1)%nat →
                 attempt_fails "payment" (square_api env_flaky i c) = true)
    by (intros [|i] c Hi; [reflexivity | lia]).
  assert (H4 : ∀ c, square_api env_flaky 1 c = Returns sample_result 200)
    by (intros c; reflexivity).
  assert (H5 : nullish sample_result = false) by reflexivity.
  assert (H6 : nullish (prop sample_result "payment") = false)
    by (vm_compute; reflexivity).
  split_and!; try assumption;
    apply (createPayment_succeeds_at_attempt env_flaky payload_min sample_result
             200 1 H1 H2 H3 H4 H5 H6).
Defined.

(** X7: for a valid create-payment payload, if the attempts before the
    (k+1)-th fail with something that is not an ApiError and the (k+1)-th
    call is answered with an ApiError, the handler bails there: exactly
    k+1 calls, attempts 1..k+1, the ApiError as result, nothing sent. *)
Theorem createPayment_rejected_at_attempt (env : Env) (payload errors : value)
    (k : nat) :
  Schema.validatePaymentPayload payload = true →
  (k < max_attempts env)%nat →
  (∀ i c, (i < k)%nat → attempt_fails "payment" (square_api env i c) = true) →
  (∀ c, square_api env k c = ThrowsApiError errors) →
  let run := createPayment env (POST "/payment" payload) fresh in
  fst run = Throw (ApiError errors) ∧
  length (client_calls (snd run)) = S k ∧
  attempt_numbers "Creating payment" (snd run) = seq 1 (S k) ∧
  responses (snd run) = [].
Proof.
  intros Hvalid Hk Hfail Hapi run. subst run.
  destruct (createPayment_enters_loop env payload Hvalid) as (m & -> & ->).
  destruct (retry_from _ _ _ _) as [r w'] eqn:E. cbn [fst snd].
  apply (loop_decided env _ _ _ _ _ (payment_loop_spec env m) k) in E
    as (Hl & Hn & c & Hlast & Hout).
  - cbn [client_calls length Nat.add] in Hout. rewrite Hapi in Hout.
    destruct Hout as [-> Hr]. cbn in Hl, Hn, Hr. split_and!; solve [reflexivity | assumption].
  - reflexivity.
  - unfold max_attempts in Hk. lia.
  - intros i c Hi. apply Hfail, Hi.
  - intros c. cbn [client_calls length Nat.add]. rewrite Hapi. reflexivity.
Qed.

(** X7 at the spec's example payload, first call lost, second rejected. *)
Lemma createPayment_rejected_at_attempt_witness :
  Schema.validatePaymentPayload payload_min = true ∧
  (1 < max_attempts env_flaky_rejecting)%nat ∧
  (∀ i c, (i < 1)%nat →
     attempt_fails "payment" (square_api env_flaky_rejecting i c) = true) ∧
  (∀ c, square_api env_flaky_rejecting 1 c
        = ThrowsApiError (VArr [VStr "INVALID_CARD_DATA"])) ∧
  fst (createPayment env_flaky_rejecting (POST "/payment" payload_min) fresh)
    = Throw (ApiError (VArr [VStr "INVALID_CARD_DATA"])) ∧
  length (client_calls
            (snd (createPayment env_flaky_rejecting (POST "/payment" payload_min) fresh))) = 2 ∧
  attempt_numbers "Creating payment"
    (snd (createPayment env_flaky_rejecting (POST "/payment" payload_min) fresh))
    = seq 1 2 ∧
  responses (snd (createPayment env_flaky_rejecting (POST "/payment" payload_min) fresh))
    = [].
Proof.
  assert (H1 : Schema.validatePaymentPayload payload_min = true)
    by (vm_compute; reflexivity).
  assert (H2 : (1 < max_attempts env_flaky_rejecting)%nat)
    by (unfold max_attempts; cbn; lia).
  assert (H3 : ∀ i c, (i < 1)%nat →
                 attempt_fails "payment" (square_api env_flaky_rejecting i c) = true)
    by (intros [|i] c Hi; [reflexivity | lia]).
  assert (H4 : ∀ c, square_api env_flaky_rejecting 1 c
                    = ThrowsApiError (VArr [VStr "INVALID_CARD_DATA"]))
    by (intros c; reflexivity).
  split_and!; try assumption;
    apply (createPayment_rejected_at_attempt env_flaky_rejecting payload_min
             (VArr [VStr "INVALID_CARD_DATA"]) 1 H1 H2 H3 H4).
Defined.

(** X8: a success whose result cannot be mapped is retried.  The mapping
    of lines 62 to 70 runs inside the try block, so when the client answers
    every call with a result without a readable payment, the TypeError of
    line 65 is treated as a retryable failure: the payment call is repeated
    until the attempts run out, nothing is sent, and the handler ends with
    the TypeError. *)
Theorem createPayment_retries_unreadable_result (env : Env) (payload : value) :
  Schema.validatePaymentPayload payload = true →
  (∀ i c, (i < max_attempts env)%nat →
     ∃ result statusCode,
       square_api env i c = Returns result statusCode ∧
       nullish result || nullish (prop result "payment") = true) →
  let run := createPayment env (POST "/payment" payload) fresh in
  length (client_calls (snd run)) = max_attempts env ∧
  attempt_numbers "Creating payment" (snd run) = seq 1 (max_attempts env) ∧
  responses (snd run) = [] ∧
  ∃ message, fst run = Throw (TypeError message).
Proof.
  intros Hvalid Hbad run. subst run.
  destruct (createPayment_enters_loop env payload Hvalid) as (m & -> & ->).
  destruct (retry_from _ _ _ _) as [r w'] eqn:E. cbn [fst snd].
  apply (loop_exhausted env _ _ _ _ _ (payment_loop_spec env m)) in E
    as (Hl & Hn & Hr & c & ex & Hlast & -> & Hout).
  - cbn [client_calls length Nat.add] in Hout.
    destruct (Hbad (retries env) c ltac:(unfold max_attempts; lia))
      as (result & statusCode & Hs & _).
    rewrite Hs in Hout. destruct Hout as [message ->].
    cbn in Hl, Hn, Hr. split_and!; eauto.
  - reflexivity.
  - intros i c Hi. cbn [client_calls length Nat.add].
    destruct (Hbad i c Hi) as (result & statusCode & -> & Hnull). exact Hnull.
Qed.

(** X8 at the spec's example payload, every call answered with {}. *)
Lemma createPayment_retries_unreadable_result_witness :
  Schema.validatePaymentPayload payload_min = true ∧
  (∀ i c, (i < max_attempts env_malformed)%nat →
     ∃ result statusCode,
       square_api env_malformed i c = Returns result statusCode ∧
       nullish result || nullish (prop result "payment") = true) ∧
  length (client_calls (snd (createPayment env_malformed (POST "/payment" payload_min) fresh)))
    = max_attempts env_malformed ∧
  attempt_numbers "Creating payment"
    (snd (createPayment env_malformed (POST "/payment" payload_min) fresh))
    = seq 1 (max_attempts env_malformed) ∧
  responses (snd (createPayment env_malformed (POST "/payment" payload_min) fresh)) = [] ∧
  ∃ message,
    fst (createPayment env_malformed (POST "/payment" payload_min) fresh)
    = Throw (TypeError message).
Proof.
  assert (H1 : Schema.validatePaymentPayload payload_min = true)
    by (vm_compute; reflexivity).
  assert (H2 : ∀ i c, (i < max_attempts env_malformed)%nat →
     ∃ result statusCode,
       square_api env_malformed i c = Returns result statusCode ∧
       nullish result || nullish (prop result "payment") = true).
  { intros i c _. exists (VObj ∅), 200%Z. split; [reflexivity|]. vm_compute. reflexivity. }
  split; [exact H1|]. split; [exact H2|].
  apply (createPayment_retries_unreadable_result env_malformed payload_min H1 H2).
Defined.

(** X9: whatever the client answers to a valid create-payment payload,
    between one and max-attempts calls are made, the attempts are numbered
    1, 2, ... with one call each, and either the handler succeeds and has
    sent exactly one response, or it ends with an exception and has sent
    none. *)
Theorem createPayment_responds_at_most_once (env : Env) (payload : value) :
  Schema.validatePaymentPayload payload = true →
  let run := createPayment env (POST "/payment" payload) fresh in
  (1 ≤ length (client_calls (snd run)) ≤ max_attempts env)%nat ∧
  attempt_numbers "Creating payment" (snd run)
    = seq 1 (length (client_calls (snd run))) ∧
  ((fst run = Ok tt ∧ ∃ x, responses (snd run) = [x]) ∨
   (∃ ex, fst run = Throw ex ∧ responses (snd run) = [])).
Proof.
  intros Hvalid run. subst run.
  destruct (createPayment_enters_loop env payload Hvalid) as (m & -> & ->).
  destruct (retry_from _ _ _ _) as [r w'] eqn:E. cbn [fst snd].
  apply (loop_responds_once env _ _ _ _ _ (payment_loop_spec env m)) in E
    as (Hl & Hn & Hres); [|reflexivity].
  cbn [client_calls length] in Hl, Hn. rewrite Nat.sub_0_r in Hn.
  cbn in Hn, Hres. unfold max_attempts. split_and!; [lia | lia | exact Hn | exact Hres].
Qed.

(** X9 at the spec's example payload, first call lost. *)
Lemma createPayment_responds_at_most_once_witness :
  Schema.validatePaymentPayload payload_min = true ∧
  (1 ≤ length (client_calls (snd (createPayment env_flaky (POST "/payment" payload_min) fresh)))
     ≤ max_attempts env_flaky)%nat ∧
  attempt_numbers "Creating payment"
    (snd (createPayment env_flaky (POST "/payment" payload_min) fresh))
    = seq 1 (length (client_calls
                       (snd (createPayment env_flaky (POST "/payment" payload_min) fresh)))) ∧
  ((fst (createPayment env_flaky (POST "/payment" payload_min) fresh) = Ok tt ∧
    ∃ x, responses (snd (createPayment env_flaky (POST "/payment" payload_min) fresh)) = [x]) ∨
   (∃ ex, fst (createPayment env_flaky (POST "/payment" payload_min) fresh) = Throw ex ∧
          responses (snd (createPayment env_flaky (POST "/payment" payload_min) fresh)) = [])).
Proof.
  split; [vm_compute; reflexivity|].
  apply (createPayment_responds_at_most_once env_flaky payload_min).
  vm_compute. reflexivity.
Defined.

(** The members of the payment object. *)
Lemma payment_request_members payload key :
  ∃ rm, payment_request payload key = VObj rm ∧
        rm !! "locationId" = Some (prop payload "locationId") ∧
        rm !! "sourceId" = Some (prop payload "sourceId") ∧
        rm !! "verificationToken"
          = (if truthy (prop payload "verificationToken")
             then Some (prop payload "verificationToken") else None) ∧
        ∀ k, is_Some (rm !! k) → k ∈ forwarded_members.
Proof.
  unfold payment_request.
  destruct (truthy (prop payload "verificationToken")); eexists;
    (split; [reflexivity|]); split_and!; try (vm_compute; reflexivity).
  all: intros k Hk%elem_of_dom;
       rewrite ?dom_insert_L, dom_singleton_L in Hk;
       rewrite ?elem_of_union, !elem_of_singleton in Hk;
       unfold forwarded_members; rewrite !elem_of_cons; tauto.
Qed.

(** X10: for a valid create-payment payload, every request forwarded to
    the client is an object with the payload's locationId and sourceId,
    with the payload's verificationToken when that is non-empty and without
    a verificationToken otherwise, and with no member besides these, the
    idempotencyKey and the amountMoney: nothing else of the payload is
    passed on. *)
Theorem createPayment_forwards_only_its_members (env : Env) (payload : value) :
  Schema.validatePaymentPayload payload = true →
  let run := createPayment env (POST "/payment" payload) fresh in
  Forall (fun c =>
            ∃ rm, c = CreatePayment (VObj rm) ∧
                  rm !! "locationId" = Some (prop payload "locationId") ∧
                  rm !! "sourceId" = Some (prop payload "sourceId") ∧
                  rm !! "verificationToken"
                    = (if truthy (prop payload "verificationToken")
                       then Some (prop payload "verificationToken") else None) ∧
                  ∀ k, is_Some (rm !! k) → k ∈ forwarded_members)
         (client_calls (snd run)).
Proof.
  intros Hvalid run. subst run.
  destruct (createPayment_enters_loop env payload Hvalid) as (m & -> & ->).
  destruct (retry_from _ _ _ _) as [r w'] eqn:E. cbn [snd].
  match goal with |- Forall ?Q _ => set (members := Q) end.
  assert (Hstep : ∀ num w r w',
             createPayment_attempt env (VObj m) bail num w = (r, w') →
             Forall members (client_calls w) → Forall members (client_calls w')).
  { intros num w r1 w1 (Hc & _)%payment_loop_spec H. rewrite Hc.
    apply Forall_app. split; [exact H|]. constructor; [|constructor].
    destruct (payment_request_members (VObj m) (next_key env (VObj m) w))
      as (rm & -> & Hrm). exists rm. split; [reflexivity | exact Hrm]. }
  apply (retry_from_inv _ _ Hstep _ _ _ _ _ E). constructor.
Qed.

(** X10 at a payload with an amount, first call lost. *)
Lemma createPayment_forwards_only_its_members_witness :
  Schema.validatePaymentPayload payload_greedy = true ∧
  Forall (fun c =>
            ∃ rm, c = CreatePayment (VObj rm) ∧
                  rm !! "locationId" = Some (prop payload_greedy "locationId") ∧
                  rm !! "sourceId" = Some (prop payload_greedy "sourceId") ∧
                  rm !! "verificationToken"
                    = (if truthy (prop payload_greedy "verificationToken")
                       then Some (prop payload_greedy "verificationToken") else None) ∧
                  ∀ k, is_Some (rm !! k) → k ∈ forwarded_members)
         (client_calls (snd (createPayment env_flaky (POST "/payment" payload_greedy) fresh))).
Proof.
  split; [vm_compute; reflexivity|].
  apply (createPayment_forwards_only_its_members env_flaky payload_greedy).
  vm_compute. reflexivity.
Defined.

(** What the card validator's acceptance says of customerId and of the
    members present. *)
Lemma card_accepted_members (m : gmap string value) :
  Schema.validateCardPayload (VObj m) = true →
  is_string (prop (VObj m) "customerId") ∧
  ∀ k, is_Some (m !! k) → k ∈ card_members.
Proof.
  unfold Schema.validateCardPayload, Schema.compile.
  cbn [Schema.properties Schema.optionalProperties Schema.cardSchema forallb].
  rewrite !andb_true_r, !andb_true_iff, !validate_string, bool_decide_eq_true.
  unfold Schema.schema_keys.
  cbn [Schema.properties Schema.optionalProperties Schema.cardSchema
       fmap list_fmap fst app].
  rewrite dom_members. intros [(_ & _ & _ & H & _) Hdom]. split; assumption.
Qed.

(** X11: line 99 reads [payload.customerID], while the schema's member is
    [customerId].  For every payload the card validator accepts, which has
    a string customerId and no member outside the schema, an attempt of
    createCard makes one call whose card has customerId undefined; the
    other members of the card and of the request are the payload's, and the
    key is the payload's or a generated one. *)
Theorem createCard_drops_customerId (env : Env) (payload : value) (num : nat)
    (w : World) :
  Schema.validateCardPayload payload = true →
  let run := createCard_attempt env payload bail num w in
  ∃ req,
    client_calls (snd run) = client_calls w ++ [CreateCard req] ∧
    is_string (prop payload "customerId") ∧
    prop (prop req "card") "customerId" = VUndefined ∧
    prop (prop req "card") "expMonth" = prop payload "expMonth" ∧
    prop (prop req "card") "expYear" = prop payload "expYear" ∧
    prop (prop req "card") "cardHolderName" = prop payload "cardHolderName" ∧
    prop req "sourceId" = prop payload "sourceId" ∧
    prop req "verificationToken" = prop payload "verificationToken" ∧
    prop req "idempotencyKey" = next_key env payload w.
Proof.
  intros Hvalid run. subst run.
  pose proof Hvalid as [m ->]%compile_obj.
  apply card_accepted_members in Hvalid as [Hcust Hdom].
  destruct (createCard_attempt env (VObj m) bail num w) as [r w'] eqn:E.
  apply card_loop_spec in E as (Hc & _). cbn [snd].
  exists (card_request (VObj m) (next_key env (VObj m) w)).
  split; [exact Hc|]. split; [exact Hcust|].
  assert (Hno : prop (VObj m) "customerID" = VUndefined).
  { apply (outside_member m card_members); [exact Hdom|].
    unfold card_members. rewrite !not_elem_of_cons.
    split_and!; try discriminate. apply not_elem_of_nil. }
  unfold card_request. rewrite Hno.
  split_and!; vm_compute; reflexivity.
Qed.

(** X11 at the sample card payload. *)
Lemma createCard_drops_customerId_witness :
  Schema.validateCardPayload (VObj card_seven) = true ∧
  ∃ req,
    client_calls (snd (createCard_attempt env_up (VObj card_seven) bail 1 fresh))
      = client_calls fresh ++ [CreateCard req] ∧
    is_string (prop (VObj card_seven) "customerId") ∧
    prop (prop req "card") "customerId" = VUndefined ∧
    prop (prop req "card") "expMonth" = prop (VObj card_seven) "expMonth" ∧
    prop (prop req "card") "expYear" = prop (VObj card_seven) "expYear" ∧
    prop (prop req "card") "cardHolderName" = prop (VObj card_seven) "cardHolderName" ∧
    prop req "sourceId" = prop (VObj card_seven) "sourceId" ∧
    prop req "verificationToken" = prop (VObj card_seven) "verificationToken" ∧
    prop req "idempotencyKey" = next_key env_up (VObj card_seven) fresh.
Proof.
  split; [vm_compute; reflexivity|].
  apply (createCard_drops_customerId env_up (VObj card_seven) 1 fresh).
  vm_compute. reflexivity.
Defined.

(** X12: the retried operation of createCard, past validation.  For a
    payload the card validator accepts, if the attempts before the (k+1)-th
    fail with something that is not an ApiError and the (k+1)-th call is
    answered with a result whose card can be read, with k below the maximum
    attempt count, then exactly k+1 calls are made, in attempts 1..k+1, the
    operation succeeds and the one response sent is {success: true, card:
    {id}} with the id of result.card, under the status the client
    reported. *)
Theorem createCard_loop_succeeds_at_attempt (env : Env) (payload result : value)
    (statusCode : Z) (k : nat) :
  Schema.validateCardPayload payload = true →
  (k < max_attempts env)%nat →
  (∀ i c, (i < k)%nat → attempt_fails "card" (square_api env i c) = true) →
  (∀ c, square_api env k c = Returns result statusCode) →
  nullish result = false →
  nullish (prop result "card") = false →
  let run := retry env (createCard_attempt env payload) fresh in
  fst run = Ok tt ∧
  length (client_calls (snd run)) = S k ∧
  attempt_numbers "Creating card on file" (snd run) = seq 1 (S k) ∧
  responses (snd run)
    = [(statusCode,
        VObj {[ "success" := VBool true;
                "card" := VObj {[ "id" := prop (prop result "card") "id" ]} ]})].
Proof.
  intros Hvalid Hk Hfail Hok Hres Hcard run. subst run.
  apply compile_obj in Hvalid as [m ->].
  unfold retry, bind. cbn [new_promise fresh].
  destruct (retry_from _ _ _ _) as [r w'] eqn:E. cbn [fst snd].
  apply (loop_decided env _ _ _ _ _ (card_loop_spec env m) k) in E
    as (Hl & Hn & c & Hlast & Hout).
  - cbn [client_calls length Nat.add] in Hout. rewrite Hok in Hout.
    destruct Hout as [-> Hr]. cbn in Hl, Hn, Hr.
    split_and!; solve [reflexivity | assumption].
  - reflexivity.
  - unfold max_attempts in Hk. lia.
  - intros i c Hi. apply Hfail, Hi.
  - intros c. cbn [client_calls length Nat.add]. rewrite Hok. cbn [attempt_fails].
    now rewrite Hres, Hcard.
Qed.

(** X12 at the sample card payload, first call lost, second answered. *)
Lemma createCard_loop_succeeds_at_attempt_witness :
  Schema.validateCardPayload (VObj card_seven) = true ∧
  (1 < max_attempts env_cards)%nat ∧
  (∀ i c, (i < 1)%nat → attempt_fails "card" (square_api env_cards i c) = true) ∧
  (∀ c, square_api env_cards 1 c
        = Returns (VObj {[ "card" := VObj {[ "id" := VStr "ccof:1" ]} ]}) 200) ∧
  fst (retry env_cards (createCard_attempt env_cards (VObj card_seven)) fresh) = Ok tt ∧
  length (client_calls
            (snd (retry env_cards (createCard_attempt env_cards (VObj card_seven)) fresh)))
    = 2 ∧
  attempt_numbers "Creating card on file"
    (snd (retry env_cards (createCard_attempt env_cards (VObj card_seven)) fresh))
    = seq 1 2 ∧
  responses (snd (retry env_cards (createCard_attempt env_cards (VObj card_seven)) fresh))
    = [(200%Z,
        VObj {[ "success" := VBool true;
                "card" :=
                  VObj {[ "id" :=
                            prop (prop (VObj {[ "card" := VObj {[ "id" := VStr "ccof:1" ]} ]})
                                    "card") "id" ]} ]})].
Proof.
  assert (H1 : Schema.validateCardPayload (VObj card_seven) = true)
    by (vm_compute; reflexivity).
  assert (H2 : (1 < max_attempts env_cards)%nat)
    by (unfold max_attempts; cbn; lia).
  assert (H3 : ∀ i c, (i < 1)%nat →
                 attempt_fails "card" (square_api env_cards i c) = true)
    by (intros [|i] c Hi; [reflexivity | lia]).
  assert (H4 : ∀ c, square_api env_cards 1 c
                    = Returns (VObj {[ "card" := VObj {[ "id" := VStr "ccof:1" ]} ]}) 200)
    by (intros c; reflexivity).
  assert (H5 : nullish (VObj {[ "card" := VObj {[ "id" := VStr "ccof:1" ]} ]}) = false)
    by reflexivity.
  assert (H6 : nullish (prop (VObj {[ "card" := VObj {[ "id" := VStr "ccof:1" ]} ]}) "card")
               = false) by (vm_compute; reflexivity).
  split_and!; try assumption;
    apply (createCard_loop_succeeds_at_attempt env_cards (VObj card_seven) _ 200 1
             H1 H2 H3 H4 H5 H6).
Defined.

(** The loop around an attempt that always rethrows the same exception. *)
Lemma retry_from_rethrown (fn : (exn → M unit) → nat → M unit) (text : string)
    (ex : exn) :
  (∀ num w, ∃ w1, fn bail num w = (Throw ex, w1) ∧
                  client_calls w1 = client_calls w ∧
                  responses w1 = responses w ∧
                  rejected w1 = rejected w ∧
                  attempt_numbers text w1 = attempt_numbers text w ++ [num]) →
  ∀ n num w,
    rejected w = None →
    ∃ w', retry_from fn n num w = (Throw ex, w') ∧
          client_calls w' = client_calls w ∧
          responses w' = responses w ∧
          attempt_numbers text w' = attempt_numbers text w ++ seq num (S n).
Proof.
  intros Hfn. induction n as [|n IH]; intros num w Hrej; cbn [retry_from];
    destruct (Hfn num w) as (w1 & -> & Hc & Hr & Hj & Ha); rewrite Hj, Hrej.
  - exists w1. split_and!; auto.
  - destruct (IH (S num) w1) as (w' & -> & Hc' & Hr' & Ha'); [congruence|].
    exists w'. split_and!; [reflexivity | congruence | congruence |].
    rewrite Ha', Ha, <- app_assoc. reflexivity.
Qed.

(** X13: the retried operations of listCards and searchCustomers use every
    attempt.  The ReferenceError for [client] is rethrown as a retryable
    failure, so for every payload the operation is invoked max-attempts
    times, numbered 1..max-attempts, the client receives no call, nothing is
    sent, and the run ends with the ReferenceError. *)
Theorem unbound_client_uses_every_attempt (env : Env) (payload : value) :
  let run1 := retry env (listCards_attempt env payload) fresh in
  let run2 := retry env (searchCustomers_attempt env payload) fresh in
  (fst run1 = Throw (ReferenceError "client") ∧
   attempt_numbers "Listing customer cards" (snd run1) = seq 1 (max_attempts env) ∧
   client_calls (snd run1) = [] ∧
   responses (snd run1) = []) ∧
  (fst run2 = Throw (ReferenceError "client") ∧
   attempt_numbers "Searching for customer" (snd run2) = seq 1 (max_attempts env) ∧
   client_calls (snd run2) = [] ∧
   responses (snd run2) = []).
Proof.
  intros run1 run2. subst run1 run2. unfold retry, bind. cbn [new_promise fresh].
  split.
  - edestruct (retry_from_rethrown (listCards_attempt env payload)
                 "Listing customer cards" (ReferenceError "client"))
      as (w' & -> & Hc & Hr & Ha).
    + intros num w. eexists. unfold listCards_attempt. rewrite ident_client.
      run_handler. split; [reflexivity|]. fields. split_and!; try reflexivity.
      unfold attempt_numbers. fields. rewrite !omap_app. cbn. now rewrite app_nil_r.
    + reflexivity.
    + cbn [fst snd]. cbn in Hc, Hr, Ha. split_and!; eauto.
  - edestruct (retry_from_rethrown (searchCustomers_attempt env payload)
                 "Searching for customer" (ReferenceError "client"))
      as (w' & -> & Hc & Hr & Ha).
    + intros num w. eexists. unfold searchCustomers_attempt. rewrite ident_client.
      run_handler. split; [reflexivity|]. fields. split_and!; try reflexivity.
      unfold attempt_numbers. fields. rewrite !omap_app. cbn. now rewrite app_nil_r.
    + reflexivity.
    + cbn [fst snd]. cbn in Hc, Hr, Ha. split_and!; eauto.
Qed.

(** createPayment on a valid payload: success with one response, or an
    exception with none. *)
Lemma createPayment_responds_once_or_throws (env : Env) (payload : value) :
  Schema.validatePaymentPayload payload = true →
  let run := createPayment env (POST "/payment" payload) fresh in
  (fst run = Ok tt ∧ ∃ x, responses (snd run) = [x]) ∨
  (∃ ex, fst run = Throw ex ∧ responses (snd run) = []).
Proof.
  intros Hvalid run. subst run.
  destruct (createPayment_enters_loop env payload Hvalid) as (m & -> & ->).
  destruct (retry_from _ _ _ _) as [r w'] eqn:E. cbn [fst snd].
  apply (loop_responds_once env _ _ _ _ _ (payment_loop_spec env m)) in E
    as (_ & _ & Hres); [|reflexivity].
  exact Hres.
Qed.

(** ** Further properties: the route table *)



Lemma url_match_literal pattern :
  literal pattern → ∀ p, microrouter.url_match pattern p = String.eqb pattern p.
Proof.
  unfold literal. induction pattern as [|c pattern IH]; intros Hlit p.
  - destruct p; reflexivity.
  - cbn [list_ascii_of_string] in Hlit. apply Forall_cons in Hlit as [Hc Hlit].
    cbn [microrouter.url_match].
    destruct (Ascii.eqb_spec c "*") as [->|_]; [congruence|].
    destruct p as [|d p]; [reflexivity|].
    cbn [String.eqb]. rewrite (IH Hlit).
    destruct (Ascii.eqb c d); reflexivity.
Qed.

Lemma literal_paths :
  literal "/cof" ∧ literal "/payment" ∧ literal "/cards" ∧ literal "/searchCustomer".
Proof. unfold literal. split_and!; cbn; repeat constructor; discriminate. Qed.

(** One turn of the router's loop. *)
Lemma router_step fn rest req w :
  microrouter.router (fn :: rest) req w
  = match fn req w with
    | (Ok v, w1) =>
        if truthy v || negb (bool_decide (responses w1 = []))
        then (Ok v, w1)
        else microrouter.router rest req w1
    | (Throw ex, w1) => (Throw ex, w1)
    end.
Proof.
  cbn [microrouter.router]. unfold bind, headersSent.
  destruct (fn req w) as [[v|ex] w1]; [|reflexivity].
  destruct (truthy v || negb (bool_decide (responses w1 = []))); reflexivity.
Qed.

(** A route that does not answer the request can be left out of the table,
    unless it is the first one. *)
Lemma router_drop f l2 req :
  (∀ w, f req w = (Ok VUndefined, w)) →
  ∀ l1 g w,
    microrouter.router (g :: l1 ++ f :: l2) req w
    = microrouter.router (g :: l1 ++ l2) req w.
Proof.
  intros Hf. induction l1 as [|h l1 IH]; intros g w.
  - cbn [app]. rewrite !(router_step g).
    destruct (g req w) as [[v|ex] w1]; [|reflexivity].
    destruct (truthy v || negb (bool_decide (responses w1 = []))) eqn:Hstop;
      [reflexivity|].
    apply orb_false_elim in Hstop as [_ Hsent].
    rewrite router_step, Hf. cbn [truthy orb]. rewrite Hsent. reflexivity.
  - change (g :: (h :: l1) ++ f :: l2) with (g :: h :: l1 ++ f :: l2).
    change (g :: (h :: l1) ++ l2) with (g :: h :: l1 ++ l2).
    rewrite !(router_step g).
    destruct (g req w) as [[v|ex] w1]; [|reflexivity].
    destruct (truthy v || negb (bool_decide (responses w1 = []))); [reflexivity|].
    apply IH.
Qed.

(** The query string takes no part in the routing. *)
Example post_payment_with_query_is_routed :
  length (client_calls
            (snd (module_exports env_up (POST "/payment?x=1" payload_min) fresh))) = 1 ∧
  fst (module_exports env_up (POST "/payment?x=1" payload_min) fresh)
    = Ok VUndefined.
Proof. split; vm_compute; reflexivity. Qed.

(** X14: the route [get('/cards', listCards)] is dead.  For every request
    and from every state the route table behaves as the table without that
    entry: every request it matches is answered before by [get('/*',
    serveStatic)], so listCards is never run. *)
Theorem cards_route_is_dead (env : Env) (req : Request) (w : World) :
  module_exports env req w = microrouter.router (routes_without_cards env) req w.
Proof.
  unfold module_exports, routes_without_cards.
  destruct (microrouter.url_match "/*" (microrouter.pathname (path req))
            && String.eqb (method req) "GET") eqn:Hstatic.
  - apply andb_prop in Hstatic as [Hpath Hget]. apply String.eqb_eq in Hget.
    assert (Hpost : ∀ p h w1, microrouter.post p h req w1 = (Ok VUndefined, w1)).
    { intros p h w1. apply route_no_match. rewrite Hget. apply andb_false_r. }
    rewrite !(router_step (microrouter.post "/cof" _)), !Hpost. cbn [truthy orb].
    destruct (negb (bool_decide (responses w = []))); [reflexivity|].
    rewrite !(router_step (microrouter.post "/payment" _)), !Hpost. cbn [truthy orb].
    destruct (negb (bool_decide (responses w = []))); [reflexivity|].
    rewrite !(router_step (microrouter.get "/*" _)).
    unfold microrouter.get at 1 3, microrouter.route, bind.
    rewrite Hpath, Hget. cbn [String.eqb Ascii.eqb Bool.eqb andb].
    rewrite serveStatic_run. cbn [ret truthy orb responses].
    rewrite (bool_decide_eq_false_2 (responses w ++ [_] = [])); [reflexivity|].
    intros H. apply app_eq_nil in H as [_ H]. discriminate.
  - change [microrouter.post "/cof" (createCard env);
            microrouter.post "/payment" (createPayment env);
            microrouter.get "/*" (serveStatic env);
            microrouter.get "/cards" (listCards env);
            microrouter.post "/searchCustomer" (searchCustomers env)]
      with (microrouter.post "/cof" (createCard env)
            :: [microrouter.post "/payment" (createPayment env);
                microrouter.get "/*" (serveStatic env)]
               ++ microrouter.get "/cards" (listCards env)
                  :: [microrouter.post "/searchCustomer" (searchCustomers env)]).
    rewrite router_drop; [reflexivity|].
    intros w1. apply route_no_match.
    destruct literal_paths as (_ & _ & Hcards & _).
    rewrite (url_match_literal _ Hcards).
    destruct (String.eqb_spec "/cards" (microrouter.pathname (path req)))
      as [Heq|_]; [|reflexivity].
    rewrite <- Heq in Hstatic. cbn [andb] in *.
    change (microrouter.url_match "/*" "/cards") with true in Hstatic.
    exact Hstatic.
Qed.

(** X16: POST /payment is handled by createPayment and by nothing else:
    the state the router leaves is the one createPayment leaves, an
    exception of createPayment leaves the router unchanged, and its success
    ends the routing with the route's undefined result. *)
Theorem post_payment_is_createPayment (env : Env) (payload : value) :
  let handled := createPayment env (POST "/payment" payload) fresh in
  module_exports env (POST "/payment" payload) fresh
  = (match fst handled with
     | Ok _ => Ok VUndefined
     | Throw ex => Throw ex
     end, snd handled).
Proof.
  intros handled. subst handled. unfold module_exports.
  rewrite router_skip; [|apply route_no_match; vm_compute; reflexivity|reflexivity].
  rewrite router_step.
  unfold microrouter.post at 1, microrouter.route, bind.
  replace (microrouter.url_match "/payment"
             (microrouter.pathname (path (POST "/payment" payload)))
           && String.eqb (method (POST "/payment" payload)) "POST") with true
    by (vm_compute; reflexivity).
  destruct (Schema.validatePaymentPayload payload) eqn:Hvalid.
  - pose proof (createPayment_responds_once_or_throws env payload Hvalid) as Hres.
    destruct (createPayment env (POST "/payment" payload) fresh) as [[[]|ex] w'];
      cbn [fst snd] in *; [|reflexivity].
    destruct Hres as [(_ & x & Hx) | (ex & [=] & _)].
    cbn [ret truthy orb]. rewrite Hx.
    rewrite (bool_decide_eq_false_2 ([x] = [])) by discriminate. reflexivity.
  - unfold POST. rewrite createPayment_unfold, Hvalid. reflexivity.
Qed.



(** X18: through the route table, POST /cof and POST /searchCustomer with
    a JSON body reach createCard and searchCustomers and end in their
    ReferenceError: the client receives no call and no response is sent. *)
Theorem post_cof_and_search_end_in_ReferenceError (env : Env) (payload : value) :
  let run1 := module_exports env (POST "/cof" payload) fresh in
  let run2 := module_exports env (POST "/searchCustomer" payload) fresh in
  (fst run1 = Throw (ReferenceError "validateCardPayload") ∧
   client_calls (snd run1) = [] ∧ responses (snd run1) = []) ∧
  (fst run2 = Throw (ReferenceError "validateSearchCustomerPayload") ∧
   client_calls (snd run2) = [] ∧ responses (snd run2) = []).
Proof.
  intros run1 run2. subst run1 run2. unfold module_exports. split.
  - rewrite router_step.
    unfold microrouter.post at 1, microrouter.route, bind.
    replace (microrouter.url_match "/cof"
               (microrouter.pathname (path (POST "/cof" payload)))
             && String.eqb (method (POST "/cof" payload)) "POST") with true
      by (vm_compute; reflexivity).
    unfold createCard, json, POST. cbn [body]. rewrite ident_validateCardPayload.
    cbv [bind ret throw logger.debug log]. cbn [fst snd client_calls responses fresh].
    split_and!; reflexivity.
  - rewrite router_skip; [|apply route_no_match; vm_compute; reflexivity|reflexivity].
    rewrite router_skip; [|apply route_no_match; vm_compute; reflexivity|reflexivity].
    rewrite router_skip; [|apply route_no_match; vm_compute; reflexivity|reflexivity].
    rewrite router_skip; [|apply route_no_match; vm_compute; reflexivity|reflexivity].
    rewrite router_step.
    unfold microrouter.post at 1, microrouter.route, bind.
    replace (microrouter.url_match "/searchCustomer"
               (microrouter.pathname (path (POST "/searchCustomer" payload)))
             && String.eqb (method (POST "/searchCustomer" payload)) "POST") with true
      by (vm_compute; reflexivity).
    unfold searchCustomers, json, POST. cbn [body].
    rewrite ident_validateSearchCustomerPayload.
    cbv [bind ret throw logger.debug log]. cbn [fst snd client_calls responses fresh].
    split_and!; reflexivity.
Qed.
